(** * pganonymizer.utils: a shallow embedding and its verified properties

    The module [pganonymizer/utils.py] anonymizes the rows of a table
    in four stages: a named cursor streams the rows in chunks, every
    row is filtered by the exclude rules and altered by the configured
    providers, the surviving rows are encoded as delimited text and
    bulk-loaded into a temporary table, and one UPDATE merges the
    temporary table back into the source table.

    Python values are modelled by a closed variant type, [str] by
    [string] (a character is a code point below 256), exceptions by a
    sum type.  The database session, the state of the providers and
    the trace of the calls that leave the module make up a world that
    is threaded through a state-and-error monad.  The providers, the
    [re] module, the database and the constants of the package are
    parameters of the development; [json.dumps] and [csv.writer] are
    modelled for the values and the dialect that the module uses.
    [parmap.map] is modelled as a map in the order of the records. *)

From Stdlib Require Import String Ascii List ZArith Bool Lia Arith.
From Stdlib Require Import DecimalString.
Import ListNotations.

Set Warnings "-register-all".
Local Open Scope list_scope.
Local Open Scope string_scope.

(* ===================================================================== *)
(** * Python values *)
(* ===================================================================== *)

(** The content of a [json]/[jsonb] column, as the driver hands it over. *)
Inductive json : Type :=
| JNull
| JBool (b : bool)
| JInt (z : Z)
| JStr (s : string)
| JList (l : list json)
| JDict (d : list (string * json)).

(** The values a row can hold: [None], [str], [int], [bool], [dict]. *)
Inductive value : Type :=
| VNone
| VStr (s : string)
| VInt (z : Z)
| VBool (b : bool)
| VDict (d : list (string * json)).

(** Truth value of an object, as tested by [if not orig_value]. *)
Definition truthy (v : value) : bool :=
  match v with
  | VNone => false
  | VStr s => negb (String.eqb s "")
  | VInt z => negb (Z.eqb z 0)
  | VBool b => b
  | VDict d => match d with [] => false | _ :: _ => true end
  end.

(** Exceptions raised by the module, the driver and the libraries. *)
Inductive exn : Type :=
| BadCopyFileFormat (msg : string)          (* psycopg2.errors *)
| InvalidTextRepresentation (msg : string)  (* psycopg2.errors *)
| DatabaseError (msg : string)              (* any other driver error *)
| BadDataFormat (cause : exn)               (* pganonymizer.exceptions *)
| ReError (msg : string)                    (* re.error *)
| KeyError (key : string)
| TypeError (msg : string)
| IndexError
| ZeroDivisionError
| ProviderError (msg : string).

(** [inl e]: the exception [e] was raised; [inr a]: normal return. *)
Definition result (A : Type) : Type := (exn + A)%type.

(* ===================================================================== *)
(** * Strings *)
(* ===================================================================== *)

Definition backslash : ascii := ascii_of_nat 92.
Definition LF : ascii := ascii_of_nat 10.
Definition CR : ascii := ascii_of_nat 13.
Definition TAB : ascii := ascii_of_nat 9.
Definition tilde : ascii := ascii_of_nat 126.
Definition dquote : ascii := ascii_of_nat 34.

Definition str1 (c : ascii) : string := String c EmptyString.

(** [sep.join(parts)] *)
Fixpoint join (sep : string) (parts : list string) : string :=
  match parts with
  | [] => ""
  | [p] => p
  | p :: rest => p ++ sep ++ join sep rest
  end.

(** [c in s] for a character [c] *)
Fixpoint contains (c : ascii) (s : string) : bool :=
  match s with
  | EmptyString => false
  | String d s' => Ascii.eqb c d || contains c s'
  end.

(** [str.replace(old, new)]: the occurrences of [old] are replaced from
    left to right and do not overlap; [skip] counts the characters of
    an occurrence that are still to be dropped.  With an empty [old],
    [new] is inserted before every character and at the end. *)
Fixpoint replace_from (old new s : string) (skip : nat) : string :=
  match s with
  | EmptyString => EmptyString
  | String c s' =>
      match skip with
      | S k => replace_from old new s' k
      | O => if String.prefix old s
             then new ++ replace_from old new s' (String.length old - 1)
             else String c (replace_from old new s' 0)
      end
  end.

Fixpoint intersperse (new s : string) : string :=
  match s with
  | EmptyString => new
  | String c s' => new ++ String c (intersperse new s')
  end.

Definition replace (old new s : string) : string :=
  match old with
  | EmptyString => intersperse new s
  | _ => replace_from old new s 0
  end.

(** [str.isspace] on the code points below 256. *)
Definition is_space (c : ascii) : bool :=
  let n := nat_of_ascii c in
  (((9 <=? n) && (n <=? 13)) || ((28 <=? n) && (n <=? 32))
   || (n =? 133) || (n =? 160))%nat.

Fixpoint lstrip (s : string) : string :=
  match s with
  | EmptyString => EmptyString
  | String c s' => if is_space c then lstrip s' else s
  end.

Fixpoint rstrip (s : string) : string :=
  match s with
  | EmptyString => EmptyString
  | String c s' =>
      match rstrip s' with
      | EmptyString => if is_space c then EmptyString else str1 c
      | r => String c r
      end
  end.

(** [str.strip()] *)
Definition strip (s : string) : string := rstrip (lstrip s).

(** [str(z)] for an [int]. *)
Definition str_int (z : Z) : string := NilEmpty.string_of_int (Z.to_int z).

(** [escape_str_replace], utils.py:305 *)
Definition escape_str_replace (text : string) : string :=
  replace (str1 TAB) (String backslash "t")
    (replace (str1 CR) (String backslash "r")
       (replace (str1 LF) (String backslash "n")
          (replace (str1 backslash) (String backslash (str1 backslash)) text))).

(* ===================================================================== *)
(** * json.dumps with its default arguments *)
(* ===================================================================== *)

Definition hex_digit (n : nat) : ascii :=
  if (n <? 10)%nat then ascii_of_nat (48 + n) else ascii_of_nat (87 + n).

(** One character of a string literal ([ensure_ascii=True]). *)
Definition json_escape_char (c : ascii) : string :=
  let n := nat_of_ascii c in
  if Ascii.eqb c dquote then String backslash (str1 dquote)
  else if Ascii.eqb c backslash then String backslash (str1 backslash)
  else if Ascii.eqb c LF then String backslash "n"
  else if Ascii.eqb c CR then String backslash "r"
  else if Ascii.eqb c TAB then String backslash "t"
  else if (n =? 8)%nat then String backslash "b"
  else if (n =? 12)%nat then String backslash "f"
  else if ((32 <=? n) && (n <=? 126))%nat then str1 c
  else String backslash
         ("u00" ++ String (hex_digit (n / 16)) (str1 (hex_digit (n mod 16)))).

Fixpoint json_escape (s : string) : string :=
  match s with
  | EmptyString => EmptyString
  | String c s' => json_escape_char c ++ json_escape s'
  end.

Definition json_quote (s : string) : string :=
  String dquote (json_escape s ++ str1 dquote).

Fixpoint json_dumps (j : json) : string :=
  match j with
  | JNull => "null"
  | JBool true => "true"
  | JBool false => "false"
  | JInt z => str_int z
  | JStr s => json_quote s
  | JList l => "[" ++ join ", " (map json_dumps l) ++ "]"
  | JDict d =>
      "{" ++ join ", "
               (map (fun kv => match kv with
                               | (k, v) => json_quote k ++ ": " ++ json_dumps v
                               end) d) ++ "}"
  end.

(* ===================================================================== *)
(** * csv.writer *)
(* ===================================================================== *)

(** [str(x)], which the writer applies to a field that is not a string;
    [None] is written as the empty field.  A field is quoted when it
    holds the delimiter, the quote character or a character of the
    line terminator; the quote character is doubled inside. *)
Definition csv_text (x : value) : string :=
  match x with
  | VNone => ""
  | VStr s => s
  | VInt z => str_int z
  | VBool true => "True"
  | VBool false => "False"
  | VDict d => json_dumps (JDict d)
  end.

Section CsvWriter.

(** The dialect of the writer: [delimiter], [quotechar],
    [lineterminator = '\n'], [QUOTE_MINIMAL], [doublequote]. *)
Variable delimiter : ascii.
Variable quotechar : ascii.

Definition csv_special (c : ascii) : bool :=
  Ascii.eqb c delimiter || Ascii.eqb c quotechar || Ascii.eqb c LF.

Fixpoint csv_needs_quote (s : string) : bool :=
  match s with
  | EmptyString => false
  | String c s' => csv_special c || csv_needs_quote s'
  end.

Fixpoint csv_double (s : string) : string :=
  match s with
  | EmptyString => EmptyString
  | String c s' =>
      if Ascii.eqb c quotechar then String c (String c (csv_double s'))
      else String c (csv_double s')
  end.

Definition csv_quoted (s : string) : string :=
  String quotechar (csv_double s ++ str1 quotechar).

Definition csv_field (s : string) : string :=
  if csv_needs_quote s then csv_quoted s else s.

(** [writer.writerow(fields)]: a record that would be empty although
    it has a field is written with that field quoted. *)
Definition csv_writerow (fields : list value) : string :=
  let rec := join (str1 delimiter) (map (fun x => csv_field (csv_text x)) fields) in
  match fields, rec with
  | _ :: _, EmptyString => csv_quoted "" ++ str1 LF
  | _, _ => rec ++ str1 LF
  end.

End CsvWriter.

(* ===================================================================== *)
(** * Rows *)
(* ===================================================================== *)

(** A [DictRow]: the values of a record in the order of the query,
    each with the name of its column. *)
Definition Row : Type := list (string * value).

Definition row_values (row : Row) : list value := map snd row.

(** [data2csv], utils.py:209 *)
Section Data2Csv.

Variable COPY_DB_DELIMITER : ascii.

Definition encode_value (x : value) : value :=
  match x with
  | VNone => VStr (String backslash "N")
  | VStr s => VStr (escape_str_replace (strip s))
  | VDict d => VStr (escape_str_replace (json_dumps (JDict d)))
  | _ => x
  end.

Definition data2csv (data : list Row) : string :=
  String.concat ""
    (map (fun row => csv_writerow COPY_DB_DELIMITER tilde
                       (map encode_value (row_values row))) data).

End Data2Csv.

(** ['"{}"'.format(name)] *)
Definition quoted (name : string) : string :=
  String dquote (name ++ str1 dquote).

(** The row as a mapping: the index built by [DictCursor] sends a name
    to the last position that carries it. *)
Fixpoint row_lookup (row : Row) (column : string) : option value :=
  match row with
  | [] => None
  | (k, v) :: rest =>
      match row_lookup rest column with
      | Some x => Some x
      | None => if String.eqb k column then Some v else None
      end
  end.

(** [row.get(column)] *)
Definition row_get (row : Row) (column : string) : value :=
  match row_lookup row column with
  | Some v => v
  | None => VNone
  end.

(** [row[column]] *)
Definition row_getitem (row : Row) (column : string) : result value :=
  match row_lookup row column with
  | Some v => inr v
  | None => inl (KeyError column)
  end.

(** [row[column] = x]; [None] stands for the [KeyError]. *)
Fixpoint row_setitem (row : Row) (column : string) (x : value) : option Row :=
  match row with
  | [] => None
  | (k, v) :: rest =>
      match row_setitem rest column x with
      | Some rest' => Some ((k, v) :: rest')
      | None => if String.eqb k column then Some ((k, x) :: rest) else None
      end
  end.

(* ===================================================================== *)
(** * Dictionaries of the schema and of the altered values *)
(* ===================================================================== *)

(** A [dict] with string keys, in insertion order. *)
Definition pydict (A : Type) : Type := list (string * A).

(** [list(d.keys())[0]] *)
Definition first_key {A : Type} (d : pydict A) : result string :=
  match d with
  | [] => inl IndexError
  | (k, _) :: _ => inr k
  end.

(** [d.get(key)] *)
Fixpoint dict_get {A : Type} (d : pydict A) (key : string) : option A :=
  match d with
  | [] => None
  | (k, a) :: rest => if String.eqb k key then Some a else dict_get rest key
  end.

(** [d[key]] *)
Definition dict_getitem {A : Type} (d : pydict A) (key : string) : result A :=
  match dict_get d key with
  | Some a => inr a
  | None => inl (KeyError key)
  end.

(** [d[key] = a]: an existing key keeps its place. *)
Fixpoint dict_set {A : Type} (d : pydict A) (key : string) (a : A) : pydict A :=
  match d with
  | [] => [(key, a)]
  | (k, b) :: rest =>
      if String.eqb k key then (k, a) :: rest else (k, b) :: dict_set rest key a
  end.

(** [value + append] with a string on the right. *)
Definition py_add (v : value) (suffix : string) : result value :=
  match v with
  | VStr s => inr (VStr (s ++ suffix))
  | _ => inl (TypeError "unsupported operand type(s) for +")
  end.

(** Bind of the error monad of the pure helpers. *)
Definition rbind {A B : Type} (r : result A) (k : A -> result B) : result B :=
  match r with
  | inl e => inl e
  | inr a => k a
  end.

Notation "x <-? r ;; k" := (rbind r (fun x => k))
  (at level 61, r at next level, right associativity).

(** [get_column_names], utils.py:301 *)
Fixpoint get_column_names {A : Type} (definitions : list (pydict A))
  : result (list string) :=
  match definitions with
  | [] => inr []
  | definition :: rest =>
      name <-? first_key definition ;;
      names <-? get_column_names rest ;;
      inr (name :: names)
  end.

(** [filter(None, data)] on the results of [process_row]: it keeps the
    objects that are true, so it drops [None] and a row without columns. *)
Fixpoint filter_none (data : list (option Row)) : list Row :=
  match data with
  | [] => []
  | None :: rest => filter_none rest
  | Some [] :: rest => filter_none rest
  | Some row :: rest => row :: filter_none rest
  end.

(** [int(math.ceil((1.0 * total_count) / (1.0 * chunk_size)))], with
    the quotient taken exactly. *)
Definition batch_count (total_count chunk_size : Z) : result Z :=
  if Z.eqb chunk_size 0 then inl ZeroDivisionError
  else inr (- ((- total_count) / chunk_size))%Z.

(* ===================================================================== *)
(** * The anonymizer over its collaborators *)
(* ===================================================================== *)

Section Anonymizer.

Set Default Proof Using "Type".

(** ** Collaborators *)

(** [pganonymizer.providers]: the registry and the providers.  A
    provider may draw on a state of its own (random or fake data). *)
Variable provider_config : Type.
Variable Provider : Type.
Variable PState : Type.
Variable get_provider : option provider_config -> result Provider.
Variable alter_value : Provider -> value -> PState -> result value * PState.

(** [re]: [re.compile(pattern, re.IGNORECASE)] and [Pattern.match],
    which looks for a match at the start of the string. *)
Variable Pattern : Type.
Variable re_compile : string -> result Pattern.
Variable pattern_match : Pattern -> string -> bool.

(** The database session behind the connection: a statement on a
    plain cursor, the query of the named cursor with its result set,
    a count, and [cursor.copy_from(data, table, sep, null)]. *)
Variable DB : Type.
Variable db_execute : string -> DB -> option exn * DB.
Variable db_declare : string -> DB -> result (list Row) * DB.
Variable db_count : string -> DB -> result Z * DB.
Variable db_copy_from : string -> string -> ascii -> string -> DB -> option exn * DB.

(** [pganonymizer.constants] *)
Variable COPY_DB_DELIMITER : ascii.
Variable DEFAULT_CHUNK_SIZE : Z.
Variable DEFAULT_PRIMARY_KEY : string.

(** ** Schema *)

(** The rule of a column: [{'provider': ..., 'append': ...}]. *)
Record column_definition : Type := {
  cd_provider : option provider_config;
  cd_append : option string
}.

(** One entry of [fields]: [{column: rule}]. *)
Definition rule : Type := pydict column_definition.

(** One entry of [excludes]: [{column: [pattern, ...]}]. *)
Definition exclude_definition : Type := pydict (list string).

Record table_definition : Type := {
  td_fields : option (list rule);
  td_excludes : option (list exclude_definition);
  td_search : option string;
  td_primary_key : option string;
  td_chunk_size : option Z
}.

(** ** The world and its monad *)

(** The calls that leave the module, in the order they are made. *)
Inductive event : Type :=
| EvExecute (sql : string)
| EvDeclare (sql : string)
| EvFetch (size : Z) (records : list Row)
| EvCopy (table data : string)
| EvGetProvider (column : string) (config : option provider_config)
| EvAlter (column : string) (orig : value).

Record World : Type := {
  db : DB;
  pending : list Row;      (* rows the named cursor has not delivered *)
  pstate : PState;
  trace : list event
}.

Definition M (A : Type) : Type := World -> result A * World.

Definition ret {A : Type} (a : A) : M A := fun w => (inr a, w).

Definition raise {A : Type} (e : exn) : M A := fun w => (inl e, w).

Definition bind {A B : Type} (m : M A) (k : A -> M B) : M B :=
  fun w => match m w with
           | (inl e, w') => (inl e, w')
           | (inr a, w') => k a w'
           end.

Definition lift {A : Type} (r : result A) : M A := fun w => (r, w).

Definition emit (e : event) : M unit :=
  fun w => (inr tt, {| db := db w; pending := pending w;
                       pstate := pstate w; trace := (trace w ++ [e])%list |}).

Notation "x <- m ;; k" := (bind m (fun x => k))
  (at level 61, m at next level, right associativity).
Notation "m ;;; k" := (bind m (fun _ => k))
  (at level 61, right associativity).

(** ** Driver calls *)

(** [cursor.execute(sql)] on a plain cursor *)
Definition execute (sql : string) : M unit :=
  emit (EvExecute sql) ;;;
  fun w => match db_execute sql (db w) with
           | (outcome, db') =>
               (match outcome with Some e => inl e | None => inr tt end,
                {| db := db'; pending := pending w;
                   pstate := pstate w; trace := trace w |})
           end.

(** [cursor.execute(sql)] on the named cursor *)
Definition declare (sql : string) : M unit :=
  emit (EvDeclare sql) ;;;
  fun w => match db_declare sql (db w) with
           | (inl e, db') =>
               (inl e, {| db := db'; pending := pending w;
                          pstate := pstate w; trace := trace w |})
           | (inr rows, db') =>
               (inr tt, {| db := db'; pending := rows;
                           pstate := pstate w; trace := trace w |})
           end.

(** [cursor.fetchmany(size=size)] on the named cursor; a negative
    size asks a forward-only cursor to move backward. *)
Definition fetchmany (size : Z) : M (list Row) :=
  fun w =>
    if (size <? 0)%Z
    then (inl (DatabaseError "cursor can only scan forward"), w)
    else
      let records := firstn (Z.to_nat size) (pending w) in
      (inr records,
       {| db := db w; pending := skipn (Z.to_nat size) (pending w);
          pstate := pstate w;
          trace := (trace w ++ [EvFetch size records])%list |}).

(** ** [row_matches_excludes], utils.py:113 *)

(** The inner loop over the patterns of one definition. *)
Fixpoint match_patterns (row : Row) (column : string) (patterns : list string)
  : result bool :=
  match patterns with
  | [] => inr false
  | exclude :: rest =>
      pattern <-? re_compile exclude ;;
      v <-? row_getitem row column ;;
      match v with
      | VNone => match_patterns row column rest
      | VStr s =>
          if pattern_match pattern s then inr true
          else match_patterns row column rest
      | _ => inl (TypeError "expected string or bytes-like object")
      end
  end.

Fixpoint match_definitions (row : Row) (excludes : list exclude_definition)
  : result bool :=
  match excludes with
  | [] => inr false
  | definition :: rest =>
      column <-? first_key definition ;;
      found <-? match_patterns row column
                  (match dict_get definition column with
                   | Some patterns => patterns
                   | None => []
                   end) ;;
      if found then inr true else match_definitions row rest
  end.

(** [excludes if excludes else []] *)
Definition or_empty {A : Type} (l : option (list A)) : list A :=
  match l with
  | Some (a :: l') => a :: l'
  | _ => []
  end.

Definition row_matches_excludes (row : Row)
           (excludes : option (list exclude_definition)) : result bool :=
  match_definitions row (or_empty excludes).

(** ** [get_column_values], utils.py:236 *)

Definition call_get_provider (column : string) (config : option provider_config)
  : M Provider :=
  emit (EvGetProvider column config) ;;; lift (get_provider config).

Definition call_alter_value (column : string) (p : Provider) (orig : value)
  : M value :=
  emit (EvAlter column orig) ;;;
  fun w => match alter_value p orig (pstate w) with
           | (r, s') => (r, {| db := db w; pending := pending w;
                               pstate := s'; trace := trace w |})
           end.

(** [if append: value = value + append] *)
Definition with_append (v : value) (suffix : option string) : result value :=
  match suffix with
  | Some s => if String.eqb s "" then inr v else py_add v s
  | None => inr v
  end.

Fixpoint get_column_values_from (row : Row) (columns : list rule)
         (column_dict : pydict value) : M (pydict value) :=
  match columns with
  | [] => ret column_dict
  | definition :: rest =>
      column_name <- lift (first_key definition) ;;
      column_definition <- lift (dict_getitem definition column_name) ;;
      let provider_config := cd_provider column_definition in
      let orig_value := row_get row column_name in
      if negb (truthy orig_value)
      then get_column_values_from row rest column_dict
      else
        provider <- call_get_provider column_name provider_config ;;
        value <- call_alter_value column_name provider orig_value ;;
        value <- lift (with_append value (cd_append column_definition)) ;;
        get_column_values_from row rest (dict_set column_dict column_name value)
  end.

Definition get_column_values (row : Row) (columns : list rule)
  : M (pydict value) :=
  get_column_values_from row columns [].

(** ** [process_row], utils.py:47 *)

(** [for key, value in row_column_dict.items(): row[key] = value] *)
Fixpoint overlay (row : Row) (items : pydict value) : result Row :=
  match items with
  | [] => inr row
  | (key, x) :: rest =>
      match row_setitem row key x with
      | Some row' => overlay row' rest
      | None => inl (KeyError key)
      end
  end.

Definition process_row (row : Row) (columns : list rule)
           (excludes : option (list exclude_definition)) : M (option Row) :=
  excluded <- lift (row_matches_excludes row excludes) ;;
  if excluded then ret None
  else
    row_column_dict <- get_column_values row columns ;;
    row' <- lift (overlay row row_column_dict) ;;
    ret (Some row').

(** ** [copy_from] and [import_data], utils.py:137 and utils.py:168 *)

Definition copy_from (data : list Row) (table : string) : M unit :=
  let new_data := data2csv COPY_DB_DELIMITER data in
  emit (EvCopy table new_data) ;;;
  fun w => match db_copy_from new_data table COPY_DB_DELIMITER
                   (String backslash "N") (db w) with
           | (outcome, db') =>
               (match outcome with
                | Some (BadCopyFileFormat msg) =>
                    inl (BadDataFormat (BadCopyFileFormat msg))
                | Some (InvalidTextRepresentation msg) =>
                    inl (BadDataFormat (InvalidTextRepresentation msg))
                | Some e => inl e
                | None => inr tt
                end,
                {| db := db'; pending := pending w;
                   pstate := pstate w; trace := trace w |})
           end.

Definition import_data (table_name : string) (data : list Row) : M unit :=
  copy_from data table_name.

(** ** [create_temporary_table], utils.py:157 *)

Definition sql_column_list (primary_key : string) (column_names : list string)
  : string :=
  join ", " (map quoted (primary_key :: column_names)).

Definition ctas_query (temp_table source_table sql_columns : string) : string :=
  "CREATE TEMP TABLE " ++ quoted temp_table ++ " AS SELECT "
  ++ sql_columns ++ str1 LF ++ "                    FROM "
  ++ quoted source_table ++ " WITH NO DATA".

Definition create_temporary_table (definitions : list rule)
           (source_table temp_table primary_key : string) : M unit :=
  let primary_key :=
    if String.eqb primary_key "" then DEFAULT_PRIMARY_KEY else primary_key in
  column_names <- lift (get_column_names definitions) ;;
  let sql_columns := sql_column_list primary_key column_names in
  execute (ctas_query temp_table source_table sql_columns).

(** ** [apply_anonymized_data], utils.py:95 *)

Definition create_index_sql (temp_table primary_key : string) : string :=
  "CREATE INDEX ON " ++ quoted temp_table ++ " (" ++ quoted primary_key ++ ")".

Definition set_clause (column : string) : string :=
  column ++ " = s." ++ column.

Definition update_sql (source_table temp_table primary_key : string)
           (column_names : list string) : string :=
  "UPDATE " ++ quoted source_table ++ " t "
  ++ "SET " ++ join ", " (map set_clause column_names) ++ " "
  ++ "FROM " ++ quoted temp_table ++ " s "
  ++ "WHERE t." ++ quoted primary_key ++ " = s." ++ quoted primary_key ++ ";".

Definition apply_anonymized_data (temp_table source_table primary_key : string)
           (definitions : list rule) : M unit :=
  execute (create_index_sql temp_table primary_key) ;;;
  names <- lift (get_column_names definitions) ;;
  let column_names := map quoted names in
  execute (update_sql source_table temp_table primary_key column_names).

(** ** [build_and_then_import_data], utils.py:57 *)

(** [parmap.map(process_row, records, columns, excludes)]: the
    results come back in the order of the records. *)
Fixpoint parmap_process_row (records : list Row) (columns : list rule)
         (excludes : option (list exclude_definition)) : M (list (option Row)) :=
  match records with
  | [] => ret []
  | row :: rest =>
      r <- process_row row columns excludes ;;
      rs <- parmap_process_row rest columns excludes ;;
      ret (r :: rs)
  end.

(** The [for i in trange(batches)] loop with its [break]. *)
Fixpoint batch_loop (batches : nat) (temp_table : string) (columns : list rule)
         (excludes : option (list exclude_definition)) (chunk_size : Z) : M unit :=
  match batches with
  | O => ret tt
  | S batches' =>
      records <- fetchmany chunk_size ;;
      match records with
      | [] => ret tt
      | _ :: _ =>
          data <- parmap_process_row records columns excludes ;;
          import_data temp_table (filter_none data) ;;;
          batch_loop batches' temp_table columns excludes chunk_size
      end
  end.

Definition select_sql (table primary_key : string) (column_names : list string)
           (search : option string) : string :=
  let sql_select :=
    "SELECT " ++ sql_column_list primary_key column_names
    ++ " FROM " ++ quoted table in
  match search with
  | Some (String c s) => sql_select ++ " WHERE " ++ String c s ++ ";"
  | _ => sql_select ++ ";"
  end.

Definition build_and_then_import_data (table primary_key : string)
           (columns : list rule) (excludes : option (list exclude_definition))
           (search : option string) (total_count chunk_size : Z) : M unit :=
  column_names <- lift (get_column_names columns) ;;
  declare (select_sql table primary_key column_names search) ;;;
  let temp_table := "tmp_" ++ table in
  create_temporary_table columns table temp_table primary_key ;;;
  batches <- lift (batch_count total_count chunk_size) ;;
  batch_loop (Z.to_nat batches) temp_table columns excludes chunk_size ;;;
  apply_anonymized_data temp_table table primary_key columns.

(** ** [get_table_count], utils.py:192 *)

Definition get_table_count (table : string) : M Z :=
  let sql := "SELECT COUNT(*) FROM " ++ table ++ ";" in
  emit (EvExecute sql) ;;;
  fun w => match db_count sql (db w) with
           | (r, db') => (r, {| db := db'; pending := pending w;
                                pstate := pstate w; trace := trace w |})
           end.

(** ** [anonymize_tables], utils.py:25 *)

Definition or_default {A : Type} (o : option A) (default : A) : A :=
  match o with
  | Some a => a
  | None => default
  end.

Fixpoint anonymize_tables (definitions : list (pydict table_definition)) : M unit :=
  match definitions with
  | [] => ret tt
  | definition :: rest =>
      table_name <- lift (first_key definition) ;;
      table_definition <- lift (dict_getitem definition table_name) ;;
      let columns := or_default (td_fields table_definition) [] in
      let excludes := match td_excludes table_definition with
                      | Some l => Some l
                      | None => Some []
                      end in
      let search := td_search table_definition in
      let primary_key :=
        or_default (td_primary_key table_definition) DEFAULT_PRIMARY_KEY in
      total_count <- get_table_count table_name ;;
      let chunk_size :=
        or_default (td_chunk_size table_definition) DEFAULT_CHUNK_SIZE in
      build_and_then_import_data table_name primary_key columns excludes
        search total_count chunk_size ;;;
      anonymize_tables rest
  end.


(** Clears the collaborators that the goal does not mention. *)
Ltac forget_unused :=
  try clear db_execute; try clear db_declare; try clear db_count;
  try clear db_copy_from; try clear alter_value; try clear get_provider;
  try clear pattern_match; try clear re_compile;
  try clear COPY_DB_DELIMITER; try clear DEFAULT_CHUNK_SIZE;
  try clear DEFAULT_PRIMARY_KEY; try clear DB; try clear Pattern;
  try clear PState; try clear Provider; try clear provider_config.

(** ** Projections of the trace *)

(** The calls that reach the database. *)
Definition is_db_event (e : event) : bool :=
  match e with
  | EvGetProvider _ _ | EvAlter _ _ => false
  | _ => true
  end.

Definition db_events (tr : list event) : list event := filter is_db_event tr.

(** The provider calls made on behalf of one column. *)
Definition is_call_for (column : string) (e : event) : bool :=
  match e with
  | EvGetProvider c _ | EvAlter c _ => String.eqb c column
  | _ => false
  end.

Definition calls_for (column : string) (tr : list event) : list event :=
  filter (is_call_for column) tr.

(** The batches delivered by the named cursor. *)
Fixpoint fetches (tr : list event) : list (Z * list Row) :=
  match tr with
  | [] => []
  | EvFetch size records :: rest => (size, records) :: fetches rest
  | _ :: rest => fetches rest
  end.

(** The names of the rules, where a rule has one. *)
Fixpoint rule_names {A : Type} (definitions : list (pydict A)) : list string :=
  match definitions with
  | [] => []
  | [] :: rest => rule_names rest
  | ((k, _) :: _) :: rest => k :: rule_names rest
  end.

(** A step that talks to the providers only. *)
Definition quiet (w w' : World) : Prop :=
  db w' = db w /\ pending w' = pending w
  /\ db_events (trace w') = db_events (trace w).


(** The bulk loads: table and data. *)
Fixpoint copies (tr : list event) : list (string * string) :=
  match tr with
  | [] => []
  | EvCopy table data :: rest => (table, data) :: copies rest
  | _ :: rest => copies rest
  end.

(** The statements run on plain cursors. *)
Fixpoint statements (tr : list event) : list string :=
  match tr with
  | [] => []
  | EvExecute sql :: rest => sql :: statements rest
  | _ :: rest => statements rest
  end.

(** The batches that [batches] rounds of [fetchmany(chunk)] deliver
    from [rows]: the loop ends with the first empty batch. *)
Fixpoint fetch_plan (batches chunk : nat) (rows : list Row) : list (list Row) :=
  match batches with
  | O => []
  | S batches' =>
      match firstn chunk rows with
      | [] => [[]]
      | b => b :: fetch_plan batches' chunk (skipn chunk rows)
      end
  end.

Definition nonempty {A : Type} (l : list A) : bool :=
  match l with
  | [] => false
  | _ :: _ => true
  end.

(** ** The exclude rules, as the schema describes them *)

(** The pattern compiles and matches the text found under the column. *)
Definition pattern_hits (row : Row) (column exclude : string) : Prop :=
  exists pattern s,
    re_compile exclude = inr pattern
    /\ row_lookup row column = Some (VStr s)
    /\ pattern_match pattern s = true.

Definition rule_hits (row : Row) (definition : exclude_definition) : Prop :=
  exists column patterns exclude,
    first_key definition = inr column
    /\ dict_get definition column = Some patterns
    /\ In exclude patterns
    /\ pattern_hits row column exclude.

Definition excluded (row : Row) (excludes : list exclude_definition) : Prop :=
  exists definition, In definition excludes /\ rule_hits row definition.

(** A rule can be evaluated on a row without an exception: it names a
    column and, unless it has no pattern, all its patterns compile and
    the row holds text or null under the column. *)
Definition rule_evaluable (row : Row) (definition : exclude_definition) : Prop :=
  exists column patterns,
    first_key definition = inr column
    /\ dict_get definition column = Some patterns
    /\ (patterns = []
        \/ ((forall exclude, In exclude patterns ->
                             exists pattern, re_compile exclude = inr pattern)
            /\ (row_lookup row column = Some VNone
                \/ exists s, row_lookup row column = Some (VStr s)))).

(** The errors of the bulk load that stand for bad data. *)
Definition data_error (e : exn) : Prop :=
  exists msg, e = BadCopyFileFormat msg \/ e = InvalidTextRepresentation msg.

(** ** Rows and dictionaries *)

Lemma row_setitem_names row c x row1 :
  row_setitem row c x = Some row1 -> map fst row1 = map fst row.
Proof.
  revert row1. induction row as [| [k v] rest IH]; intros row1 H; simpl in H.
  - discriminate.
  - destruct (row_setitem rest c x) as [rest' |] eqn:E.
    + inversion H; subst. simpl. now rewrite (IH rest').
    + destruct (String.eqb k c); inversion H; subst. reflexivity.
Qed.

Lemma row_setitem_nth row c x row1 i k v :
  row_setitem row c x = Some row1 ->
  nth_error row i = Some (k, v) -> k <> c ->
  nth_error row1 i = Some (k, v).
Proof.
  revert row1 i. induction row as [| [k0 v0] rest IH]; intros row1 i H Hn Hk;
    simpl in H.
  - discriminate.
  - destruct (row_setitem rest c x) as [rest' |] eqn:E.
    + inversion H; subst. destruct i as [| i]; simpl in *; [assumption |].
      now apply IH.
    + destruct (String.eqb_spec k0 c) as [-> | Hne]; inversion H; subst.
      destruct i as [| i]; simpl in *; [| assumption].
      inversion Hn; subst. congruence.
Qed.

Lemma row_setitem_none row c x :
  row_setitem row c x = None <-> row_lookup row c = None.
Proof. forget_unused.
  induction row as [| [k v] rest IH]; simpl; [tauto |].
  destruct (row_setitem rest c x), (row_lookup rest c);
    destruct (String.eqb k c); split; intros H;
    try discriminate; try reflexivity;
    solve [ apply IH in H; discriminate
          | destruct IH as [IH1 IH2]; try (specialize (IH2 eq_refl)); discriminate
          | destruct IH as [IH1 IH2]; try (specialize (IH1 eq_refl)); discriminate ].
Qed.

Lemma row_setitem_lookup_same row c x row1 :
  row_setitem row c x = Some row1 -> row_lookup row1 c = Some x.
Proof.
  revert row1. induction row as [| [k v] rest IH]; intros row1 H; simpl in H.
  - discriminate.
  - destruct (row_setitem rest c x) as [rest' |] eqn:E.
    + inversion H; subst. simpl. now rewrite (IH rest').
    + destruct (String.eqb k c) eqn:Ek; inversion H; subst.
      simpl. apply row_setitem_none in E. now rewrite E, Ek.
Qed.

Lemma row_setitem_lookup_other row c x row1 c' :
  row_setitem row c x = Some row1 -> c' <> c ->
  row_lookup row1 c' = row_lookup row c'.
Proof.
  revert row1. induction row as [| [k v] rest IH]; intros row1 H Hne;
    simpl in H.
  - discriminate.
  - destruct (row_setitem rest c x) as [rest' |] eqn:E.
    + inversion H; subst. simpl. now rewrite (IH rest').
    + destruct (String.eqb_spec k c) as [-> | Hk]; inversion H; subst.
      simpl. destruct (row_lookup rest c'); [reflexivity |].
      destruct (String.eqb_spec c c'); [congruence | reflexivity].
Qed.

Lemma dict_get_set_same {A : Type} (d : pydict A) k a :
  dict_get (dict_set d k a) k = Some a.
Proof.
  induction d as [| [k0 b] rest IH]; simpl.
  - now rewrite String.eqb_refl.
  - destruct (String.eqb k0 k) eqn:E; simpl; rewrite E; [reflexivity | exact IH].
Qed.

Lemma dict_get_set_other {A : Type} (d : pydict A) k a k' :
  k' <> k -> dict_get (dict_set d k a) k' = dict_get d k'.
Proof.
  intros Hne. induction d as [| [k0 b] rest IH]; simpl.
  - destruct (String.eqb_spec k k'); [congruence | reflexivity].
  - destruct (String.eqb_spec k0 k) as [-> | Hk]; simpl.
    + destruct (String.eqb_spec k k'); [congruence | reflexivity].
    + rewrite IH. reflexivity.
Qed.

Lemma dict_set_keys {A : Type} (d : pydict A) k a k' :
  In k' (map fst (dict_set d k a)) <-> k' = k \/ In k' (map fst d).
Proof. forget_unused.
  induction d as [| [k0 b] rest IH]; simpl.
  - intuition.
  - destruct (String.eqb_spec k0 k) as [-> | Hk]; simpl; [intuition |].
    rewrite IH. intuition.
Qed.

Lemma dict_set_nodup {A : Type} (d : pydict A) k a :
  NoDup (map fst d) -> NoDup (map fst (dict_set d k a)).
Proof.
  induction d as [| [k0 b] rest IH]; simpl; intros H.
  - constructor; [intros [] | constructor].
  - inversion H as [| ? ? Hnotin Hrest]; subst.
    destruct (String.eqb_spec k0 k) as [-> | Hk]; simpl.
    + constructor; assumption.
    + constructor; [| now apply IH].
      rewrite dict_set_keys. intros [-> | Hin]; [congruence | contradiction].
Qed.

Lemma dict_get_keys {A : Type} (d : pydict A) k :
  dict_get d k <> None <-> In k (map fst d).
Proof. forget_unused.
  induction d as [| [k0 b] rest IH]; simpl; [tauto |].
  destruct (String.eqb_spec k0 k) as [-> | Hk].
  - split; [now left | discriminate].
  - rewrite IH. intuition.
Qed.

Lemma overlay_names items : forall row row',
  overlay row items = inr row' -> map fst row' = map fst row.
Proof.
  induction items as [| [k x] rest IH]; intros row row' H; simpl in H.
  - now inversion H.
  - destruct (row_setitem row k x) as [row1 |] eqn:E; [| discriminate].
    rewrite (IH _ _ H). eapply row_setitem_names; eassumption.
Qed.

Lemma overlay_nth items : forall row row' i k v,
  overlay row items = inr row' ->
  nth_error row i = Some (k, v) -> ~ In k (map fst items) ->
  nth_error row' i = Some (k, v).
Proof. forget_unused.
  induction items as [| [k0 x] rest IH]; intros row row' i k v H Hn Hk;
    simpl in H.
  - now inversion H; subst.
  - destruct (row_setitem row k0 x) as [row1 |] eqn:E; [| discriminate].
    simpl in Hk. eapply IH; [eassumption | | tauto].
    eapply row_setitem_nth; [eassumption | assumption | intuition].
Qed.

Lemma overlay_lookup_other items : forall row row' c,
  overlay row items = inr row' -> ~ In c (map fst items) ->
  row_lookup row' c = row_lookup row c.
Proof. forget_unused.
  induction items as [| [k0 x] rest IH]; intros row row' c H Hk; simpl in H.
  - now inversion H; subst.
  - destruct (row_setitem row k0 x) as [row1 |] eqn:E; [| discriminate].
    simpl in Hk. rewrite (IH _ _ c H) by tauto.
    eapply row_setitem_lookup_other; [eassumption | intuition].
Qed.

Lemma overlay_lookup_in items : forall row row' c x,
  overlay row items = inr row' -> NoDup (map fst items) ->
  dict_get items c = Some x -> row_lookup row' c = Some x.
Proof.
  induction items as [| [k0 y] rest IH]; intros row row' c x H Hnd Hg;
    simpl in H, Hg.
  - discriminate.
  - destruct (row_setitem row k0 y) as [row1 |] eqn:E; [| discriminate].
    simpl in Hnd. inversion Hnd as [| ? ? Hnotin Hrest]; subst.
    destruct (String.eqb_spec k0 c) as [-> | Hk].
    + inversion Hg; subst.
      rewrite (overlay_lookup_other _ _ _ c H Hnotin).
      eapply row_setitem_lookup_same; eassumption.
    + eapply IH; eassumption.
Qed.

Lemma overlay_defined items : forall row,
  (forall k, In k (map fst items) -> row_lookup row k <> None) ->
  exists row', overlay row items = inr row'.
Proof.
  induction items as [| [k0 y] rest IH]; intros row H; simpl.
  - eauto.
  - destruct (row_setitem row k0 y) as [row1 |] eqn:E.
    + apply IH. intros k Hk.
      destruct (String.eqb_spec k k0) as [-> | Hne].
      * rewrite (row_setitem_lookup_same _ _ _ _ E). discriminate.
      * rewrite (row_setitem_lookup_other _ _ _ _ k E Hne).
        apply H. simpl. now right.
    + apply row_setitem_none in E. exfalso. apply (H k0); [now left | exact E].
Qed.

(** ** The trace under the primitive steps *)

Lemma db_events_app tr1 tr2 :
  db_events (tr1 ++ tr2) = (db_events tr1 ++ db_events tr2)%list.
Proof. apply filter_app. Qed.

Lemma calls_for_app c tr1 tr2 :
  calls_for c (tr1 ++ tr2) = (calls_for c tr1 ++ calls_for c tr2)%list.
Proof. apply filter_app. Qed.

Lemma fetches_app tr1 tr2 :
  fetches (tr1 ++ tr2) = (fetches tr1 ++ fetches tr2)%list.
Proof.
  induction tr1 as [| e tr1 IH]; [reflexivity |].
  destruct e; simpl; rewrite ?IH; reflexivity.
Qed.

Lemma quiet_refl w : quiet w w.
Proof. repeat split. Qed.

Lemma quiet_trans w1 w2 w3 : quiet w1 w2 -> quiet w2 w3 -> quiet w1 w3.
Proof.
  intros (A1 & B1 & C1) (A2 & B2 & C2). repeat split; congruence.
Qed.

Lemma quiet_intro w w' :
  db w' = db w -> pending w' = pending w ->
  db_events (trace w') = db_events (trace w) -> quiet w w'.
Proof. intros; repeat split; assumption. Qed.

Ltac quiet_tac :=
  apply quiet_intro; cbn [db pending trace];
  [reflexivity | reflexivity
   | rewrite ?db_events_app; simpl; rewrite ?app_nil_r; reflexivity].

(** ** One rule of [get_column_values] *)

Lemma get_column_values_from_cons row definition rest d w :
  get_column_values_from row (definition :: rest) d w
  = match get_column_values_from row [definition] d w with
    | (inl e, w1) => (inl e, w1)
    | (inr d1, w1) => get_column_values_from row rest d1 w1
    end.
Proof.
  cbn [get_column_values_from].
  unfold call_get_provider, call_alter_value; unfold bind, lift, ret, emit.
  destruct (first_key definition) as [e | c]; [reflexivity |].
  destruct (dict_getitem definition c) as [e | cd]; [reflexivity |].
  destruct (truthy (row_get row c)); cbn [negb]; [| reflexivity].
  destruct (get_provider (cd_provider cd)) as [e | p]; [reflexivity |].
  cbn [pstate db pending trace].
  destruct (alter_value p (row_get row c) (pstate w)) as [[e | v] s'];
    [reflexivity |].
  destruct (with_append v (cd_append cd)) as [e | v']; reflexivity.
Qed.

(** What a rule does when it raises nothing. *)
Lemma rule_altered row definition d w d1 w1 c cd :
  get_column_values_from row [definition] d w = (inr d1, w1) ->
  first_key definition = inr c ->
  dict_getitem definition c = inr cd ->
  truthy (row_get row c) = true ->
  exists p v v',
    get_provider (cd_provider cd) = inr p
    /\ alter_value p (row_get row c) (pstate w) = (inr v, pstate w1)
    /\ with_append v (cd_append cd) = inr v'
    /\ d1 = dict_set d c v'.
Proof.
  intros H Hk Hcd Ht. cbn [get_column_values_from] in H.
  unfold call_get_provider, call_alter_value in H;
    unfold bind, lift, ret, emit in H.
  rewrite Hk, Hcd, Ht in H. cbn [negb pstate db pending trace] in H.
  destruct (get_provider (cd_provider cd)) as [e | p]; [discriminate |].
  destruct (alter_value p (row_get row c) (pstate w)) as [[e | v] s'] eqn:Ea;
    [discriminate |].
  destruct (with_append v (cd_append cd)) as [e | v'] eqn:Ev; [discriminate |].
  inversion H; subst. cbn [pstate]. eauto 8.
Qed.

(** What a rule leaves alone: the session, and every column that the
    rule does not name or whose value is not true. *)
Lemma rule_frame row definition d w r w1 :
  get_column_values_from row [definition] d w = (r, w1) ->
  quiet w w1
  /\ (forall c, first_key definition <> inr c \/ truthy (row_get row c) = false ->
                calls_for c (trace w1) = calls_for c (trace w)
                /\ forall d1, r = inr d1 -> dict_get d1 c = dict_get d c)
  /\ (forall d1, r = inr d1 ->
                 (forall k, In k (map fst d1) ->
                            In k (map fst d)
                            \/ (first_key definition = inr k
                                /\ truthy (row_get row k) = true))
                 /\ (NoDup (map fst d) -> NoDup (map fst d1))).
Proof.
  intros H. cbn [get_column_values_from] in H.
  unfold call_get_provider, call_alter_value in H;
    unfold bind, lift, ret, emit in H.
  destruct (first_key definition) as [e | c0] eqn:Hk.
  { inversion H; subst. split; [apply quiet_refl |].
    split; [intros c _; split; [reflexivity | discriminate] | discriminate]. }
  destruct (dict_getitem definition c0) as [e | cd] eqn:Hcd.
  { inversion H; subst. split; [apply quiet_refl |].
    split; [intros c _; split; [reflexivity | discriminate] | discriminate]. }
  destruct (truthy (row_get row c0)) eqn:Ht; cbn [negb] in H.
  2:{ inversion H; subst. split; [apply quiet_refl |].
      split; [intros c _; split; [reflexivity | now inversion 1] |].
      intros d1 E; inversion E; subst. split; [now left | trivial]. }
  assert (Hcalls : forall c, inr c0 <> inr (A:=exn) c \/ truthy (row_get row c) = false ->
                             String.eqb c0 c = false).
  { intros c [Hc | Hc]; destruct (String.eqb_spec c0 c); congruence. }
  cbn [pstate db pending trace] in H.
  destruct (get_provider (cd_provider cd)) as [e | p].
  { inversion H; subst; cbn [db pending trace]. split.
    - quiet_tac.
    - split; [| discriminate]. intros c Hc. split; [| discriminate].
      rewrite calls_for_app. simpl. rewrite (Hcalls c Hc). apply app_nil_r. }
  destruct (alter_value p (row_get row c0) (pstate w)) as [[e | v] s'].
  { inversion H; subst; cbn [db pending trace]. split.
    - quiet_tac.
    - split; [| discriminate]. intros c Hc. split; [| discriminate].
      rewrite !calls_for_app. simpl. rewrite (Hcalls c Hc), !app_nil_r.
      reflexivity. }
  destruct (with_append v (cd_append cd)) as [e | v'];
    inversion H; subst; cbn [db pending trace].
  - split.
    + quiet_tac.
    + split; [| discriminate]. intros c Hc. split; [| discriminate].
      rewrite !calls_for_app. simpl. rewrite (Hcalls c Hc), !app_nil_r.
      reflexivity.
  - split.
    + quiet_tac.
    + split.
      * intros c Hc. split.
        -- rewrite !calls_for_app. simpl. rewrite (Hcalls c Hc), !app_nil_r.
           reflexivity.
        -- intros d1 E; inversion E; subst. apply dict_get_set_other.
           specialize (Hcalls c Hc). destruct (String.eqb_spec c0 c); congruence.
      * intros d1 E; inversion E; subst. split.
        -- intros k Hin. apply dict_set_keys in Hin.
           destruct Hin as [-> | Hin]; [right; split; trivial | now left].
        -- apply dict_set_nodup.
Qed.

(** ** All the rules *)

Lemma rule_names_cons {A : Type} (definition : pydict A) rest c :
  In c (rule_names (definition :: rest))
  <-> first_key definition = inr c \/ In c (rule_names rest).
Proof.
  destruct definition as [| [k a] more]; simpl.
  - split; [now right | intros [H | H]; [discriminate | exact H]].
  - split; intros [H | H]; auto; [left; congruence | left; congruence].
Qed.

Lemma rule_names_app {A : Type} (l1 l2 : list (pydict A)) :
  rule_names (l1 ++ l2) = (rule_names l1 ++ rule_names l2)%list.
Proof.
  induction l1 as [| [| [k a] more] l1 IH]; simpl; rewrite ?IH; reflexivity.
Qed.

Lemma get_column_values_frame columns : forall row d w r w',
  get_column_values_from row columns d w = (r, w') ->
  quiet w w'
  /\ (forall c, ~ In c (rule_names columns) \/ truthy (row_get row c) = false ->
                calls_for c (trace w') = calls_for c (trace w)
                /\ forall d', r = inr d' -> dict_get d' c = dict_get d c)
  /\ (forall d', r = inr d' ->
                 (forall k, In k (map fst d') ->
                            In k (map fst d)
                            \/ (In k (rule_names columns)
                                /\ truthy (row_get row k) = true))
                 /\ (NoDup (map fst d) -> NoDup (map fst d'))).
Proof. forget_unused.
  induction columns as [| definition rest IH]; intros row d w r w' H.
  - inversion H; subst. split; [apply quiet_refl |].
    split; [intros c _; split; [reflexivity | now inversion 1] |].
    intros d' E; inversion E; subst. split; [now left | trivial].
  - rewrite get_column_values_from_cons in H.
    destruct (get_column_values_from row [definition] d w) as [[e | d1] w1] eqn:E1;
      apply rule_frame in E1; destruct E1 as (Q1 & F1 & K1).
    + inversion H; subst. split; [exact Q1 |].
      split; [| discriminate].
      intros c Hc. split; [| discriminate].
      apply F1. rewrite rule_names_cons in Hc. tauto.
    + apply IH in H. destruct H as (Q2 & F2 & K2).
      split; [eapply quiet_trans; eassumption |].
      split.
      * intros c Hc.
        assert (Hc1 : first_key definition <> inr c \/ truthy (row_get row c) = false)
          by (rewrite rule_names_cons in Hc; tauto).
        assert (Hc2 : ~ In c (rule_names rest) \/ truthy (row_get row c) = false)
          by (rewrite rule_names_cons in Hc; tauto).
        destruct (F1 c Hc1) as [T1 D1]. destruct (F2 c Hc2) as [T2 D2].
        split; [congruence |].
        intros d' E. rewrite (D2 d' E). now apply D1.
      * intros d' E. destruct (K2 d' E) as [In2 Nd2].
        destruct (K1 d1 eq_refl) as [In1 Nd1].
        split; [| auto].
        intros k Hk. rewrite rule_names_cons.
        destruct (In2 k Hk) as [Hd1 | [Hn Ht]]; [| tauto].
        destruct (In1 k Hd1) as [Hd | [Hn Ht]]; tauto.
Qed.

(** A run that returns went through every rule. *)
Lemma get_column_values_split pre : forall row definition post d w d' w',
  get_column_values_from row (pre ++ definition :: post) d w = (inr d', w') ->
  exists d0 w0 d1 w1,
    get_column_values_from row pre d w = (inr d0, w0)
    /\ get_column_values_from row [definition] d0 w0 = (inr d1, w1)
    /\ get_column_values_from row post d1 w1 = (inr d', w').
Proof.
  induction pre as [| a pre IH]; intros row definition post d w d' w' H.
  - cbn [app] in H. rewrite get_column_values_from_cons in H.
    destruct (get_column_values_from row [definition] d w) as [[e | d1] w1] eqn:E1;
      [discriminate |].
    exists d, w, d1, w1. repeat split; assumption.
  - cbn [app] in H. rewrite get_column_values_from_cons in H.
    destruct (get_column_values_from row [a] d w) as [[e | da] wa] eqn:Ea;
      [discriminate |].
    apply IH in H. destruct H as (d0 & w0 & d1 & w1 & H0 & H1 & H2).
    exists d0, w0, d1, w1. repeat split; try assumption.
    rewrite get_column_values_from_cons, Ea. exact H0.
Qed.

(** ** [process_row] by cases *)

Lemma process_row_cases row columns excludes w r w' :
  process_row row columns excludes w = (r, w') ->
  (exists e, row_matches_excludes row excludes = inl e /\ r = inl e /\ w' = w)
  \/ (row_matches_excludes row excludes = inr true /\ r = inr None /\ w' = w)
  \/ (row_matches_excludes row excludes = inr false
      /\ ((exists e, get_column_values row columns w = (inl e, w') /\ r = inl e)
          \/ (exists d row',
                 get_column_values row columns w = (inr d, w')
                 /\ overlay row d = inr row' /\ r = inr (Some row')))).
Proof.
  unfold process_row, bind, lift, ret. intros H.
  destruct (row_matches_excludes row excludes) as [e | [|]].
  - left. inversion H; eauto.
  - right; left. inversion H; auto.
  - right; right. split; [reflexivity |].
    destruct (get_column_values row columns w) as [[e | d] w1] eqn:E.
    + left. inversion H; subst. eauto.
    + right.
      destruct (get_column_values_frame _ _ _ _ _ _ E) as (_ & _ & K).
      destruct (K d eq_refl) as [Hin _].
      destruct (overlay_defined d row) as [row' Hov].
      { intros k Hk. destruct (Hin k Hk) as [[] | [_ Ht]].
        unfold row_get in Ht. destruct (row_lookup row k); [discriminate |].
        discriminate Ht. }
      rewrite Hov in H. inversion H; subst. eauto.
Qed.

Lemma process_row_some row columns excludes w row' w' :
  process_row row columns excludes w = (inr (Some row'), w') ->
  row_matches_excludes row excludes = inr false
  /\ exists d, get_column_values row columns w = (inr d, w')
               /\ overlay row d = inr row'.
Proof.
  intros H. apply process_row_cases in H.
  destruct H as [(e & _ & E & _) | [(_ & E & _) | (Hx & [(e & _ & E) | (d & r & Hg & Ho & E)])]];
    try discriminate.
  inversion E; subst. eauto.
Qed.

Lemma process_row_quiet row columns excludes w r w' :
  process_row row columns excludes w = (r, w') -> quiet w w'.
Proof. forget_unused.
  intros H. apply process_row_cases in H.
  destruct H as [(e & _ & _ & ->) | [(_ & _ & ->) | (_ & [(e & Hg & _) | (d & r' & Hg & _)])]];
    try apply quiet_refl;
    apply get_column_values_frame in Hg; tauto.
Qed.

(** ** The transformer *)

Lemma row_get_lookup row c v :
  row_lookup row c = Some v -> row_get row c = v.
Proof. unfold row_get. now intros ->. Qed.

Lemma get_column_values_keys row columns w d w' :
  get_column_values row columns w = (inr d, w') ->
  NoDup (map fst d)
  /\ forall k, In k (map fst d) ->
               In k (rule_names columns) /\ truthy (row_get row k) = true.
Proof.
  intros H. apply get_column_values_frame in H. destruct H as (_ & _ & K).
  destruct (K d eq_refl) as [Hin Hnd]. split; [apply Hnd; constructor |].
  intros k Hk. destruct (Hin k Hk) as [[] | ?]. assumption.
Qed.

(** A column whose value is not true is passed over: no provider is
    looked up or called for it, the mapping has no entry for it and
    the row keeps what it had, at every position of that name. *)
Lemma skip_not_true row columns excludes w c r w' :
  truthy (row_get row c) = false ->
  process_row row columns excludes w = (r, w') ->
  calls_for c (trace w') = calls_for c (trace w)
  /\ (forall d w1, get_column_values row columns w = (inr d, w1) ->
                   dict_get d c = None)
  /\ (forall row', r = inr (Some row') ->
                   row_get row' c = row_get row c
                   /\ forall i v, nth_error row i = Some (c, v) ->
                                  nth_error row' i = Some (c, v)).
Proof. forget_unused.
  intros Hf H.
  assert (Hd : forall d w1, get_column_values row columns w = (inr d, w1) ->
                            dict_get d c = None).
  { intros d w1 Hg. apply get_column_values_frame in Hg.
    destruct Hg as (_ & F & _). destruct (F c (or_intror Hf)) as [_ D].
    now rewrite (D d eq_refl). }
  split; [| split; [exact Hd |]].
  - apply process_row_cases in H.
    destruct H as [(e & _ & _ & ->) | [(_ & _ & ->) | (_ & [(e & Hg & _) | (d & r' & Hg & _)])]];
      try reflexivity;
      apply get_column_values_frame in Hg; destruct Hg as (_ & F & _);
      apply (F c (or_intror Hf)).
  - intros row' ->. apply process_row_some in H.
    destruct H as (_ & d & Hg & Ho).
    assert (Hnot : ~ In c (map fst d)).
    { rewrite <- dict_get_keys, (Hd d w' Hg). tauto. }
    split.
    + unfold row_get. now rewrite (overlay_lookup_other _ _ _ c Ho Hnot).
    + intros i v Hn. eapply overlay_nth; eassumption.
Qed.

Lemma truthy_false_iff v :
  truthy v = false
  <-> v = VNone \/ v = VStr "" \/ v = VInt 0 \/ v = VBool false \/ v = VDict [].
Proof.
  split.
  - destruct v as [| s | z | b | d]; simpl; intros H.
    + now left.
    + right; left. destruct (String.eqb_spec s ""); [now subst | discriminate].
    + right; right; left. destruct (Z.eqb_spec z 0); [now subst | discriminate].
    + right; right; right; left. now subst.
    + right; right; right; right. destruct d; [reflexivity | discriminate].
  - intros [-> | [-> | [-> | [-> | ->]]]]; reflexivity.
Qed.

(** C9: the row that [process_row] returns has the columns of the
    original row, and agrees with it at every position whose column
    is not named by a rule, hence also on the value found under such
    a name (the identifying column among them). *)
Theorem process_row_frame row columns excludes w row' w' :
  process_row row columns excludes w = (inr (Some row'), w') ->
  map fst row' = map fst row
  /\ (forall i k v, nth_error row i = Some (k, v) ->
                    ~ In k (rule_names columns) ->
                    nth_error row' i = Some (k, v))
  /\ (forall c, ~ In c (rule_names columns) -> row_get row' c = row_get row c).
Proof.
  intros H. apply process_row_some in H. destruct H as (_ & d & Hg & Ho).
  destruct (get_column_values_keys _ _ _ _ _ Hg) as [_ Hkeys].
  split; [eapply overlay_names; eassumption |].
  split.
  - intros i k v Hn Hk. eapply overlay_nth; [eassumption | eassumption |].
    intros Hin. apply Hk. now apply Hkeys.
  - intros c Hc. unfold row_get.
    rewrite (overlay_lookup_other _ _ _ c Ho); [reflexivity |].
    intros Hin. apply Hc. now apply Hkeys.
Qed.

(** C6: a rule column whose original value is null or the empty
    string (or that the row does not have) is skipped: the run of
    [process_row] makes no provider call for it, the mapping returned
    by [get_column_values] has no entry for it, and a returned row
    keeps the original value of the column. *)
Theorem skip_null_or_empty row columns excludes w c r w' :
  row_get row c = VNone \/ row_get row c = VStr "" ->
  process_row row columns excludes w = (r, w') ->
  calls_for c (trace w') = calls_for c (trace w)
  /\ (forall d w1, get_column_values row columns w = (inr d, w1) ->
                   dict_get d c = None)
  /\ (forall row', r = inr (Some row') ->
                   row_get row' c = row_get row c
                   /\ forall i v, nth_error row i = Some (c, v) ->
                                  nth_error row' i = Some (c, v)).
Proof.
  intros Hv. apply skip_not_true.
  destruct Hv as [-> | ->]; reflexivity.
Qed.

(** C10: the test is on the truth value of the original value, so
    the number 0, the boolean False and the empty dict are skipped
    like null and the empty string: no provider call is made for the
    column, the mapping has no entry for it and a returned row keeps
    the original value. *)
Theorem skip_every_false_value row columns excludes w c r w' :
  In (row_get row c) [VNone; VStr ""; VInt 0; VBool false; VDict []] ->
  process_row row columns excludes w = (r, w') ->
  calls_for c (trace w') = calls_for c (trace w)
  /\ (forall d w1, get_column_values row columns w = (inr d, w1) ->
                   dict_get d c = None)
  /\ (forall row', r = inr (Some row') ->
                   row_get row' c = row_get row c
                   /\ forall i v, nth_error row i = Some (c, v) ->
                                  nth_error row' i = Some (c, v)).
Proof. forget_unused.
  intros Hv. apply skip_not_true. apply truthy_false_iff.
  simpl in Hv. intuition auto.
Qed.

(** C2, amended: when [process_row] returns a row, a rule column
    whose original value is true (not null, empty, zero or false)
    holds, in the returned row, the value that the provider of the
    last rule naming the column returned for the original value, with
    the suffix of that rule appended when one is configured. *)
Theorem altered_value row pre definition post excludes w row' w' c cd :
  process_row row (pre ++ definition :: post) excludes w = (inr (Some row'), w') ->
  first_key definition = inr c ->
  dict_getitem definition c = inr cd ->
  ~ In c (rule_names post) ->
  truthy (row_get row c) = true ->
  exists p s s' v,
    get_provider (cd_provider cd) = inr p
    /\ alter_value p (row_get row c) s = (inr v, s')
    /\ with_append v (cd_append cd) = inr (row_get row' c).
Proof.
  intros H Hk Hcd Hlast Ht.
  apply process_row_some in H. destruct H as (_ & d & Hg & Ho).
  destruct (get_column_values_keys _ _ _ _ _ Hg) as [Hnd _].
  unfold get_column_values in Hg.
  apply get_column_values_split in Hg.
  destruct Hg as (d0 & w0 & d1 & w1 & _ & H1 & H2).
  destruct (rule_altered _ _ _ _ _ _ _ _ H1 Hk Hcd Ht)
    as (p & v & v' & Hp & Ha & Hv & ->).
  apply get_column_values_frame in H2. destruct H2 as (_ & F & _).
  destruct (F c (or_introl Hlast)) as [_ D].
  specialize (D d eq_refl). rewrite dict_get_set_same in D.
  exists p, (pstate w0), (pstate w1), v. repeat split; try assumption.
  rewrite Hv. f_equal. symmetry. apply row_get_lookup.
  eapply overlay_lookup_in; eassumption.
Qed.

(** ** The exclude filter *)


Lemma match_patterns_evaluable row column patterns :
  (forall exclude, In exclude patterns ->
                   exists pattern, re_compile exclude = inr pattern) ->
  (row_lookup row column = Some VNone
   \/ exists s, row_lookup row column = Some (VStr s)) ->
  (match_patterns row column patterns = inr true
   \/ (match_patterns row column patterns = inr false
       /\ forall exclude, In exclude patterns -> ~ pattern_hits row column exclude)).
Proof.
  intros Hc Hv. induction patterns as [| exclude rest IH]; simpl.
  - right. split; [reflexivity | intros ? []].
  - destruct (Hc exclude (or_introl eq_refl)) as [pattern Ep].
    unfold rbind, row_getitem. rewrite Ep.
    assert (IH' := IH (fun x Hx => Hc x (or_intror Hx))). clear IH.
    destruct Hv as [Hv | [s Hv]]; rewrite Hv.
    + destruct IH' as [IH' | [IH' Hno]]; [now left |].
      right. split; [exact IH' |].
      intros x [<- | Hx]; [| now apply Hno].
      intros (p & s & _ & Hl & _). congruence.
    + destruct (pattern_match pattern s) eqn:Em; [now left |].
      destruct IH' as [IH' | [IH' Hno]]; [now left |].
      right. split; [exact IH' |].
      intros x [<- | Hx]; [| now apply Hno].
      intros (p & s' & Hp & Hl & Hm).
      rewrite Ep in Hp. rewrite Hv in Hl. inversion Hp; inversion Hl; subst.
      congruence.
Qed.





(** ** The bulk load *)

(** C7: when the server rejects the data with [BadCopyFileFormat] or
    [InvalidTextRepresentation], [copy_from] raises [BadDataFormat]
    around that error and not the error itself; an error of any other
    kind is raised as the driver raised it. *)
Theorem copy_from_errors data table w e db' :
  db_copy_from (data2csv COPY_DB_DELIMITER data) table COPY_DB_DELIMITER
    (String backslash "N") (db w) = (Some e, db') ->
  (data_error e ->
   fst (copy_from data table w) = inl (BadDataFormat e) /\ BadDataFormat e <> e)
  /\ (~ data_error e -> fst (copy_from data table w) = inl e).
Proof.
  intros H. unfold copy_from, bind, emit. cbn [db pending pstate trace].
  rewrite H. cbn [fst]. split.
  - intros [msg [-> | ->]]; (split; [reflexivity |]);
      intros E; clear - E;
      match type of E with BadDataFormat ?x = _ => remember x as y end;
      clear Heqy; induction y; inversion E; auto.
  - intros Hn. destruct e; try reflexivity; exfalso; apply Hn; exists msg; auto.
Qed.

(** ** The driver calls *)

Lemma copies_app tr1 tr2 : copies (tr1 ++ tr2) = (copies tr1 ++ copies tr2)%list.
Proof.
  induction tr1 as [| e tr1 IH]; [reflexivity |].
  destruct e; simpl; rewrite ?IH; reflexivity.
Qed.

Lemma statements_app tr1 tr2 :
  statements (tr1 ++ tr2) = (statements tr1 ++ statements tr2)%list.
Proof.
  induction tr1 as [| e tr1 IH]; [reflexivity |].
  destruct e; simpl; rewrite ?IH; reflexivity.
Qed.

Lemma fetches_db_events tr : fetches (db_events tr) = fetches tr.
Proof.
  induction tr as [| e tr IH]; [reflexivity |].
  destruct e; simpl; rewrite ?IH; reflexivity.
Qed.

Lemma copies_db_events tr : copies (db_events tr) = copies tr.
Proof.
  induction tr as [| e tr IH]; [reflexivity |].
  destruct e; simpl; rewrite ?IH; reflexivity.
Qed.

Lemma statements_db_events tr : statements (db_events tr) = statements tr.
Proof.
  induction tr as [| e tr IH]; [reflexivity |].
  destruct e; simpl; rewrite ?IH; reflexivity.
Qed.

Lemma quiet_projections w w' :
  quiet w w' ->
  pending w' = pending w
  /\ fetches (trace w') = fetches (trace w)
  /\ copies (trace w') = copies (trace w)
  /\ statements (trace w') = statements (trace w).
Proof.
  intros (_ & Hp & He). split; [exact Hp |].
  rewrite <- (fetches_db_events (trace w')), <- (copies_db_events (trace w')),
    <- (statements_db_events (trace w')), He,
    fetches_db_events, copies_db_events, statements_db_events.
  auto.
Qed.

Lemma bind_inr {A B : Type} (m : M A) (k : A -> M B) w b w' :
  bind m k w = (inr b, w') ->
  exists a w1, m w = (inr a, w1) /\ k a w1 = (inr b, w').
Proof.
  unfold bind. destruct (m w) as [[e | a] w1]; [discriminate | eauto].
Qed.

Lemma lift_inr {A : Type} (r : result A) w a w' :
  lift r w = (inr a, w') -> r = inr a /\ w' = w.
Proof. unfold lift. intros H; inversion H; auto. Qed.

Lemma execute_effect sql w r w' :
  execute sql w = (r, w') ->
  pending w' = pending w /\ pstate w' = pstate w
  /\ trace w' = (trace w ++ [EvExecute sql])%list
  /\ exists outcome,
      db_execute sql (db w) = (outcome, db w')
      /\ r = match outcome with Some e => inl e | None => inr tt end.
Proof.
  unfold execute, bind, emit. cbn [db pending pstate trace].
  destruct (db_execute sql (db w)) as [outcome db1].
  intros H; inversion H; subst; cbn [db pending pstate trace]. eauto 6.
Qed.

Lemma declare_effect sql w r w' :
  declare sql w = (r, w') ->
  pstate w' = pstate w
  /\ trace w' = (trace w ++ [EvDeclare sql])%list
  /\ exists answer,
      db_declare sql (db w) = (answer, db w')
      /\ match answer with
         | inl e => r = inl e /\ pending w' = pending w
         | inr rows => r = inr tt /\ pending w' = rows
         end.
Proof.
  unfold declare, bind, emit. cbn [db pending pstate trace].
  destruct (db_declare sql (db w)) as [[e | rows] db1];
    intros H; inversion H; subst; cbn [db pending pstate trace];
    (split; [reflexivity |]); (split; [reflexivity |]);
    eexists; (split; [reflexivity |]); cbn; auto.
Qed.

Lemma fetchmany_effect size w :
  (0 <= size)%Z ->
  fetchmany size w
  = (inr (firstn (Z.to_nat size) (pending w)),
     {| db := db w; pending := skipn (Z.to_nat size) (pending w);
        pstate := pstate w;
        trace := (trace w ++ [EvFetch size (firstn (Z.to_nat size) (pending w))])%list |}).
Proof.
  intros H. unfold fetchmany.
  destruct (Z.ltb_spec size 0); [lia | reflexivity].
Qed.

Lemma copy_from_effect data table w r w' :
  copy_from data table w = (r, w') ->
  pending w' = pending w /\ pstate w' = pstate w
  /\ trace w' = (trace w ++ [EvCopy table (data2csv COPY_DB_DELIMITER data)])%list.
Proof.
  unfold copy_from, bind, emit. cbn [db pending pstate trace].
  destruct (db_copy_from _ _ _ _ (db w)) as [outcome db1].
  intros H; inversion H; subst; cbn [db pending pstate trace]. auto.
Qed.

Lemma parmap_quiet records : forall columns excludes w r w',
  parmap_process_row records columns excludes w = (r, w') -> quiet w w'.
Proof.
  induction records as [| row rest IH]; intros columns excludes w r w' H.
  - inversion H; subst. apply quiet_refl.
  - cbn [parmap_process_row] in H. unfold bind at 1 in H.
    destruct (process_row row columns excludes w) as [[e | x] w1] eqn:E1.
    + inversion H; subst. eapply process_row_quiet; eassumption.
    + apply process_row_quiet in E1. unfold bind, ret in H.
      destruct (parmap_process_row rest columns excludes w1) as [[e | xs] w2] eqn:E2;
        inversion H; subst; apply IH in E2;
        eapply quiet_trans; eassumption.
Qed.

(** ** The merge *)

Lemma get_column_names_rule_names {A : Type} (definitions : list (pydict A)) names :
  get_column_names definitions = inr names -> names = rule_names definitions.
Proof.
  revert names. induction definitions as [| [| [k a] more] rest IH];
    intros names H; simpl in H.
  - now inversion H.
  - discriminate.
  - unfold rbind in H. destruct (get_column_names rest) as [e | ns];
      [discriminate |].
    inversion H; subst. simpl. now rewrite (IH ns).
Qed.

Lemma apply_anonymized_data_trace temp_table source_table primary_key
      definitions names w r w' :
  get_column_names definitions = inr names ->
  fst (db_execute (create_index_sql temp_table primary_key) (db w)) = None ->
  apply_anonymized_data temp_table source_table primary_key definitions w = (r, w') ->
  trace w'
  = (trace w
     ++ [EvExecute (create_index_sql temp_table primary_key);
         EvExecute (update_sql source_table temp_table primary_key
                      (map quoted names))])%list
  /\ pending w' = pending w /\ pstate w' = pstate w.
Proof.
  intros Hn Hidx H. unfold apply_anonymized_data in H.
  unfold bind at 1 in H.
  destruct (execute (create_index_sql temp_table primary_key) w)
    as [[e | []] w1] eqn:E1;
    apply execute_effect in E1;
    destruct E1 as (P1 & S1 & T1 & outcome & O1 & R1);
    rewrite O1 in Hidx; cbn [fst] in Hidx; subst outcome; [discriminate |].
  unfold bind, lift in H. rewrite Hn in H.
  destruct (execute _ w1) as [r2 w2] eqn:E2.
  apply execute_effect in E2. destruct E2 as (P2 & S2 & T2 & _).
  assert (w' = w2) by (destruct r2; inversion H; reflexivity). subst w2.
  split; [| split; congruence].
  rewrite T2, T1, <- app_assoc. reflexivity.
Qed.


(** ** The batches *)







Lemma execute_neutral sql w r w' :
  execute sql w = (r, w') ->
  pending w' = pending w
  /\ fetches (trace w') = fetches (trace w)
  /\ copies (trace w') = copies (trace w).
Proof.
  intros H. apply execute_effect in H. destruct H as (P & _ & T & _).
  rewrite T, fetches_app, copies_app. simpl. now rewrite !app_nil_r.
Qed.

Lemma create_temporary_table_neutral definitions source temp pk w r w' :
  create_temporary_table definitions source temp pk w = (r, w') ->
  pending w' = pending w
  /\ fetches (trace w') = fetches (trace w)
  /\ copies (trace w') = copies (trace w).
Proof.
  unfold create_temporary_table, bind, lift.
  destruct (get_column_names definitions) as [e | names].
  - intros H; inversion H; auto.
  - apply execute_neutral.
Qed.

Lemma apply_anonymized_data_neutral temp source pk definitions w r w' :
  apply_anonymized_data temp source pk definitions w = (r, w') ->
  pending w' = pending w
  /\ fetches (trace w') = fetches (trace w)
  /\ copies (trace w') = copies (trace w).
Proof.
  unfold apply_anonymized_data. unfold bind at 1.
  destruct (execute (create_index_sql temp pk) w) as [[e | []] w1] eqn:E1;
    apply execute_neutral in E1; destruct E1 as (P1 & F1 & C1).
  - intros H; inversion H; subst; auto.
  - unfold bind, lift. destruct (get_column_names definitions) as [e | names].
    + intros H; inversion H; subst; auto.
    + intros H. apply execute_neutral in H. destruct H as (P2 & F2 & C2).
      repeat split; congruence.
Qed.

(** A loop that ends without an exception has delivered the planned
    batches, which with the rows left in the cursor make up the rows
    it started from, and has loaded one text per batch that was not
    empty into the temporary table. *)
Lemma batch_loop_ok batches temp columns excludes chunk_size :
  (0 <= chunk_size)%Z ->
  forall w w',
    batch_loop batches temp columns excludes chunk_size w = (inr tt, w') ->
    let plan := fetch_plan batches (Z.to_nat chunk_size) (pending w) in
    fetches (trace w') = (fetches (trace w) ++ map (pair chunk_size) plan)%list
    /\ (concat plan ++ pending w')%list = pending w
    /\ statements (trace w') = statements (trace w)
    /\ exists texts,
        copies (trace w') = (copies (trace w) ++ map (pair temp) texts)%list
        /\ length texts = length (filter nonempty plan).
Proof.
  intros Hc. induction batches as [| n IH]; intros w w' H.
  - inversion H; subst. cbn. rewrite app_nil_r.
    repeat split. exists []. now rewrite app_nil_r.
  - cbn [batch_loop] in H. unfold bind at 1 in H.
    rewrite (fetchmany_effect _ _ Hc) in H.
    cbn [fetch_plan].
    destruct (firstn (Z.to_nat chunk_size) (pending w)) as [| r0 b] eqn:E.
    + inversion H; subst. cbn [pending trace].
      rewrite fetches_app, copies_app, statements_app. cbn.
      split; [reflexivity |]. split.
      * rewrite <- (firstn_skipn (Z.to_nat chunk_size) (pending w)) at 2.
        now rewrite E.
      * split; [apply app_nil_r |]. exists []. now rewrite !app_nil_r.
    + unfold bind at 1 in H.
      destruct (parmap_process_row (r0 :: b) columns excludes _)
        as [[e | data] w2] eqn:Ep; [discriminate |].
      apply parmap_quiet, quiet_projections in Ep.
      cbn [pending trace] in Ep. destruct Ep as (P2 & F2 & C2 & S2).
      unfold bind, import_data in H.
      destruct (copy_from (filter_none data) temp w2) as [[e | []] w3] eqn:Ec;
        [discriminate |].
      apply copy_from_effect in Ec. destruct Ec as (P3 & _ & T3).
      apply IH in H. cbv zeta in H.
      destruct H as (F4 & R4 & S4 & texts & C4 & L4).
      rewrite P3, P2 in F4, R4, L4.
      rewrite T3, fetches_app, F2, fetches_app in F4. cbn in F4.
      rewrite app_nil_r, <- app_assoc in F4.
      split; [exact F4 |]. split; [| split].
      * cbn [concat]. rewrite <- app_assoc, R4, <- E. apply firstn_skipn.
      * rewrite S4, T3, statements_app, S2, statements_app. cbn.
        now rewrite !app_nil_r.
      * exists (data2csv COPY_DB_DELIMITER (filter_none data) :: texts).
        split.
        -- rewrite C4, T3, copies_app, C2, copies_app. cbn.
           now rewrite app_nil_r, <- app_assoc.
        -- cbn. now rewrite L4.
Qed.

(** ** The run over one table *)

Lemma batch_count_positive total_count chunk_size :
  (0 < chunk_size)%Z ->
  batch_count total_count chunk_size = inr (- (- total_count / chunk_size))%Z
  /\ (total_count <= - (- total_count / chunk_size) * chunk_size)%Z
  /\ (0 < total_count -> 0 < - (- total_count / chunk_size))%Z.
Proof.
  intros Hc. unfold batch_count.
  destruct (Z.eqb_spec chunk_size 0); [lia |].
  split; [reflexivity |].
  pose proof (Z.mul_div_le (- total_count) chunk_size Hc).
  split; [lia | nia].
Qed.


(** The statements of a run over a table that ends without an
    exception: the temporary table is created, indexed and merged,
    and no other statement is run on a plain cursor. *)
Lemma table_statements table primary_key columns excludes search total_count
      chunk_size w w' :
  (0 < chunk_size)%Z ->
  build_and_then_import_data table primary_key columns excludes search
    total_count chunk_size w = (inr tt, w') ->
  exists names,
    get_column_names columns = inr names
    /\ statements (trace w')
       = (statements (trace w)
          ++ [ctas_query ("tmp_" ++ table) table
                (sql_column_list
                   (if String.eqb primary_key "" then DEFAULT_PRIMARY_KEY
                    else primary_key) names);
              create_index_sql ("tmp_" ++ table) primary_key;
              update_sql table ("tmp_" ++ table) primary_key
                (map quoted names)])%list.
Proof.
  intros Hc H. unfold build_and_then_import_data in H.
  apply bind_inr in H. destruct H as (names & w0 & H0 & H).
  apply lift_inr in H0. destruct H0 as [Hn ->].
  apply bind_inr in H. destruct H as ([] & w1 & H1 & H).
  apply declare_effect in H1. destruct H1 as (_ & T1 & _).
  apply bind_inr in H. destruct H as ([] & w2 & H2 & H).
  unfold create_temporary_table, bind at 1, lift in H2. rewrite Hn in H2.
  apply execute_effect in H2. destruct H2 as (_ & _ & T2 & _).
  apply bind_inr in H. destruct H as (batches & w3 & H3 & H).
  apply lift_inr in H3. destruct H3 as [_ ->].
  apply bind_inr in H. destruct H as ([] & w4 & H4 & H).
  apply batch_loop_ok in H4; [| lia]. cbv zeta in H4.
  destruct H4 as (_ & _ & S4 & _).
  assert (H' := H). unfold apply_anonymized_data in H'.
  apply bind_inr in H'. destruct H' as ([] & w5 & H5 & _).
  apply execute_effect in H5. destruct H5 as (_ & _ & _ & outcome & O5 & R5).
  destruct outcome; [discriminate |].
  destruct (apply_anonymized_data_trace _ _ _ _ names _ _ _ Hn
              ltac:(now rewrite O5) H) as (T5 & _).
  exists names. split; [exact Hn |].
  rewrite T5, statements_app, S4, T2, statements_app, T1, statements_app.
  cbn. rewrite app_nil_r, <- app_assoc. reflexivity.
Qed.

(** ** Where an invalid pattern is found *)

Lemma bind_ext {A B : Type} (m : M A) (k1 k2 : A -> M B) w :
  (forall a w1, m w = (inr a, w1) -> k1 a w1 = k2 a w1) ->
  bind m k1 w = bind m k2 w.
Proof.
  intros H. unfold bind. destruct (m w) as [[e | a] w1]; [reflexivity |].
  now apply H.
Qed.

Lemma batch_loop_no_rows batches temp columns excludes1 excludes2 chunk_size w :
  pending w = [] ->
  batch_loop batches temp columns excludes1 chunk_size w
  = batch_loop batches temp columns excludes2 chunk_size w.
Proof.
  intros Hp. destruct batches as [| n]; [reflexivity |].
  cbn [batch_loop]. unfold bind, fetchmany. rewrite Hp.
  destruct (chunk_size <? 0)%Z; [reflexivity |].
  rewrite firstn_nil. reflexivity.
Qed.

Lemma row_matches_excludes_bad_pattern row excludes column exclude more others
      rules e :
  excludes = Some (((column, exclude :: more) :: others) :: rules) ->
  re_compile exclude = inl e ->
  row_matches_excludes row excludes = inl e.
Proof.
  intros -> He. unfold row_matches_excludes. cbn.
  rewrite String.eqb_refl. cbn. now rewrite He.
Qed.

Lemma process_row_bad_pattern row columns excludes w e :
  row_matches_excludes row excludes = inl e ->
  process_row row columns excludes w = (inl e, w).
Proof. intros H. unfold process_row, bind, lift. now rewrite H. Qed.

(** C8, amended: the patterns of the exclude rules are compiled while
    rows are processed and nowhere else.  When the query of a table
    returns no row, the run over the table does the same whatever the
    exclude rules are, so an invalid pattern raises nothing.  When
    the query returns rows and the first pattern of the first rule
    does not compile, the run raises the error of the compilation
    while it processes the first row: the cursor has been opened, the
    temporary table created and the first batch fetched, and nothing
    has been loaded or merged. *)
Theorem invalid_pattern_found_late table primary_key columns search
        total_count chunk_size names w :
  (0 < chunk_size)%Z ->
  get_column_names columns = inr names ->
  let select := select_sql table primary_key names search in
  let create :=
    ctas_query ("tmp_" ++ table) table
      (sql_column_list
         (if String.eqb primary_key "" then DEFAULT_PRIMARY_KEY else primary_key)
         names) in
  (fst (db_declare select (db w)) = inr [] ->
   forall excludes1 excludes2,
     build_and_then_import_data table primary_key columns excludes1 search
       total_count chunk_size w
     = build_and_then_import_data table primary_key columns excludes2 search
         total_count chunk_size w)
  /\ (forall column exclude more others rules e r0 rest db1,
         re_compile exclude = inl e ->
         (0 < total_count)%Z ->
         db_declare select (db w) = (inr (r0 :: rest), db1) ->
         fst (db_execute create db1) = None ->
         exists w',
           build_and_then_import_data table primary_key columns
             (Some (((column, exclude :: more) :: others) :: rules)) search
             total_count chunk_size w = (inl e, w')
           /\ trace w'
              = List.app (trace w)
                  [EvDeclare select; EvExecute create;
                   EvFetch chunk_size
                     (firstn (Z.to_nat chunk_size) (r0 :: rest))]).
Proof.
  intros Hc Hn select create. split.
  - intros Hd excludes1 excludes2. unfold build_and_then_import_data.
    apply bind_ext. intros names0 w0 H0.
    apply lift_inr in H0. destruct H0 as [Hn0 ->].
    rewrite Hn in Hn0. inversion Hn0; subst names0.
    apply bind_ext. intros [] w1 H1.
    apply declare_effect in H1. destruct H1 as (_ & _ & answer & D1 & A1).
    fold select in D1. rewrite D1 in Hd. cbn [fst] in Hd. subst answer.
    destruct A1 as [_ P1].
    apply bind_ext. intros [] w2 H2.
    apply create_temporary_table_neutral in H2. destruct H2 as (P2 & _).
    apply bind_ext. intros batches w3 H3.
    apply lift_inr in H3. destruct H3 as [_ ->].
    unfold bind.
    rewrite (batch_loop_no_rows _ _ _ excludes1 excludes2) by congruence.
    reflexivity.
  - intros column exclude more others rules e r0 rest db1 He Ht Hd Hx.
    set (excludes := Some (((column, exclude :: more) :: others) :: rules)).
    assert (Hrow : forall w1, process_row r0 columns excludes w1 = (inl e, w1)).
    { intros w1. apply process_row_bad_pattern.
      eapply row_matches_excludes_bad_pattern; [reflexivity | exact He]. }
    destruct (batch_count_positive total_count chunk_size Hc) as (Eb & _ & Hpos).
    specialize (Hpos Ht).
    destruct (Z.to_nat (- (- total_count / chunk_size))) as [| n] eqn:En; [lia |].
    destruct (Z.to_nat chunk_size) as [| c] eqn:Ec; [lia |].
    destruct (db_execute create db1) as [outcome db2] eqn:Ex.
    cbn [fst] in Hx. subst outcome.
    eexists. split.
    + unfold build_and_then_import_data.
      unfold bind at 1. unfold lift at 1. rewrite Hn.
      unfold bind at 1. unfold declare at 1. unfold bind at 1, emit at 1.
      cbn [db pending pstate trace]. fold select. rewrite Hd.
      unfold bind at 1. unfold create_temporary_table at 1.
      unfold bind at 1. unfold lift at 1. rewrite Hn.
      unfold execute at 1. unfold bind at 1, emit at 1.
      cbn [db pending pstate trace]. fold create. rewrite Ex.
      unfold bind at 1. unfold lift at 1. rewrite Eb.
      unfold bind at 1. rewrite En. cbn [batch_loop].
      unfold bind at 1. rewrite fetchmany_effect by lia.
      cbn [db pending pstate trace]. rewrite Ec. cbn [firstn].
      unfold bind at 1. cbn [parmap_process_row]. unfold bind at 1.
      rewrite Hrow. reflexivity.
    + cbn [trace]. rewrite <- !app_assoc. reflexivity.
Qed.

(** ** [truncate_tables], utils.py:269 *)

Definition truncate_tables (tables : option (list string)) : M unit :=
  match or_empty tables with
  | [] => ret tt
  | t :: more =>
      let table_names := join ", " (t :: more) in
      execute ("TRUNCATE TABLE " ++ table_names ++ ";")
  end.

(** [t] is a part of [s]. *)
Definition occurs_in (t s : string) : Prop :=
  exists before after, s = before ++ t ++ after.

(** The provider calls that a rule asks for on a row. *)
Definition rule_calls (row : Row) (definition : rule) : list event :=
  match definition with
  | [] => []
  | (column, column_definition) :: _ =>
      if truthy (row_get row column)
      then [EvGetProvider column (cd_provider column_definition);
            EvAlter column (row_get row column)]
      else []
  end.

Definition is_empty {A : Type} (l : list A) : bool :=
  match l with
  | [] => true
  | _ :: _ => false
  end.

(** The world after [fetchmany(size)] has delivered a batch. *)
Definition after_fetch (size : Z) (w : World) : World :=
  {| db := db w; pending := skipn (Z.to_nat size) (pending w);
     pstate := pstate w;
     trace := (trace w
               ++ [EvFetch size (firstn (Z.to_nat size) (pending w))])%list |}.

(** ** The names of the rules *)

(** X8: [get_column_names] returns the first key of every definition, in
    order and one for one; it raises [IndexError], and nothing else,
    when a definition has no key. *)
Theorem get_column_names_result {A : Type} (definitions : list (pydict A)) :
  get_column_names definitions
  = (if existsb is_empty definitions then inl IndexError
     else inr (rule_names definitions))
  /\ (existsb is_empty definitions = false ->
      length (rule_names definitions) = length definitions).
Proof.
  induction definitions as [| [| [k a] more] rest [IH1 IH2]]; cbn.
  - auto.
  - split; [reflexivity | discriminate].
  - unfold rbind. rewrite IH1.
    destruct (existsb is_empty rest); split; try reflexivity;
      try discriminate.
    intros _. f_equal. now apply IH2.
Qed.

(** ** The ceiling of the batch count *)


(** ** The provider calls of a row *)

Lemma rule_trace row definition d w d1 w1 :
  get_column_values_from row [definition] d w = (inr d1, w1) ->
  trace w1 = (trace w ++ rule_calls row definition)%list.
Proof.
  intros H. cbn [get_column_values_from] in H.
  unfold call_get_provider, call_alter_value in H;
    unfold bind, lift, ret, emit in H.
  destruct definition as [| [c cd] more]; [discriminate |].
  cbn [first_key] in H. unfold dict_getitem in H. cbn [dict_get] in H.
  rewrite String.eqb_refl in H. cbn [rule_calls].
  destruct (truthy (row_get row c)); cbn [negb] in H.
  - cbn [pstate db pending trace] in H.
    destruct (get_provider (cd_provider cd)) as [e | p]; [discriminate |].
    destruct (alter_value p (row_get row c) (pstate w)) as [[e | v] s'];
      [discriminate |].
    destruct (with_append v (cd_append cd)) as [e | v']; [discriminate |].
    inversion H; subst. cbn [trace]. now rewrite <- app_assoc.
  - inversion H; subst. now rewrite app_nil_r.
Qed.

Lemma get_column_values_trace columns : forall row d w d' w',
  get_column_values_from row columns d w = (inr d', w') ->
  trace w' = (trace w ++ flat_map (rule_calls row) columns)%list.
Proof.
  induction columns as [| definition rest IH]; intros row d w d' w' H.
  - inversion H; subst. now rewrite app_nil_r.
  - rewrite get_column_values_from_cons in H.
    destruct (get_column_values_from row [definition] d w) as [[e | d1] w1] eqn:E1;
      [discriminate |].
    apply rule_trace in E1. apply IH in H.
    rewrite H, E1, <- app_assoc. reflexivity.
Qed.

(** X10: when [get_column_values] returns, it has looked up and called
    one provider for every rule whose column holds a true value, in
    the order of the rules and each time on the value the row came
    with, and it has made no other call. *)
Theorem provider_calls row columns w d w' :
  get_column_values row columns w = (inr d, w') ->
  trace w' = (trace w ++ flat_map (rule_calls row) columns)%list.
Proof. apply get_column_values_trace. Qed.

Lemma rule_keys row definition d w d1 w1 :
  get_column_values_from row [definition] d w = (inr d1, w1) ->
  forall k, In k (map fst d1)
            <-> In k (map fst d)
                \/ (first_key definition = inr k
                    /\ truthy (row_get row k) = true).
Proof. forget_unused.
  intros H k.
  destruct definition as [| [c cd] more];
    [cbn in H; unfold bind, lift in H; discriminate |].
  assert (Hk : first_key ((c, cd) :: more) = inr c) by reflexivity.
  assert (Hcd : dict_getitem ((c, cd) :: more) c = inr cd).
  { unfold dict_getitem. cbn. now rewrite String.eqb_refl. }
  destruct (truthy (row_get row c)) eqn:Ht.
  - destruct (rule_altered _ _ _ _ _ _ _ _ H Hk Hcd Ht)
      as (p & v & v' & _ & _ & _ & ->).
    rewrite dict_set_keys. cbn [first_key]. split.
    + intros [-> | Hin]; [right; split; [reflexivity | exact Ht] | now left].
    + intros [Hin | [E _]]; [now right | left; congruence].
  - cbn [get_column_values_from] in H. unfold bind, lift, ret in H.
    rewrite Hk, Hcd, Ht in H. cbn [negb] in H. inversion H; subst.
    cbn [first_key]. split; [now left |].
    intros [Hin | [E Hc]]; [exact Hin |].
    inversion E; subst. congruence.
Qed.

Lemma get_column_values_keys_iff columns : forall row d w d' w',
  get_column_values_from row columns d w = (inr d', w') ->
  forall k, In k (map fst d')
            <-> In k (map fst d)
                \/ (In k (rule_names columns)
                    /\ truthy (row_get row k) = true).
Proof. forget_unused.
  induction columns as [| definition rest IH]; intros row d w d' w' H k.
  - inversion H; subst. cbn. tauto.
  - rewrite get_column_values_from_cons in H.
    destruct (get_column_values_from row [definition] d w) as [[e | d1] w1] eqn:E1;
      [discriminate |].
    rewrite (IH _ _ _ _ _ H k), (rule_keys _ _ _ _ _ _ E1 k), rule_names_cons.
    tauto.
Qed.

(** X11: the mapping that [get_column_values] returns has an entry for
    exactly the rule columns whose value in the row is true, and one
    entry for each. *)
Theorem altered_columns row columns w d w' :
  get_column_values row columns w = (inr d, w') ->
  NoDup (map fst d)
  /\ forall c, dict_get d c <> None
               <-> (In c (rule_names columns)
                    /\ truthy (row_get row c) = true).
Proof. forget_unused.
  intros H. split; [eapply get_column_values_keys; eassumption |].
  intros c. rewrite dict_get_keys.
  rewrite (get_column_values_keys_iff _ _ _ _ _ _ H c). cbn. tauto.
Qed.

(** ** The row that [process_row] returns *)

(** X12: writing the mapping into the row never fails: when the exclude
    rules do not match and [get_column_values] returns a mapping,
    [process_row] returns the row with the same columns, holding the
    value of the mapping where there is one and the original value
    elsewhere. *)
Theorem process_row_overlays row columns excludes w d w' :
  row_matches_excludes row excludes = inr false ->
  get_column_values row columns w = (inr d, w') ->
  exists row',
    process_row row columns excludes w = (inr (Some row'), w')
    /\ map fst row' = map fst row
    /\ forall c, row_get row' c = match dict_get d c with
                                  | Some x => x
                                  | None => row_get row c
                                  end.
Proof.
  intros Hx Hg.
  destruct (get_column_values_keys _ _ _ _ _ Hg) as [Hnd Hkeys].
  destruct (overlay_defined d row) as [row' Ho].
  { intros k Hk. destruct (Hkeys k Hk) as [_ Ht].
    unfold row_get in Ht. destruct (row_lookup row k); discriminate. }
  exists row'. split; [| split].
  - unfold process_row, bind, lift, ret. now rewrite Hx, Hg, Ho.
  - eapply overlay_names; eassumption.
  - intros c. destruct (dict_get d c) as [x |] eqn:Ed.
    + apply row_get_lookup. eapply overlay_lookup_in; eassumption.
    + unfold row_get. rewrite (overlay_lookup_other _ _ _ c Ho); [reflexivity |].
      rewrite <- dict_get_keys, Ed. intros Hn. now apply Hn.
Qed.

Lemma parmap_length records : forall columns excludes w data w',
  parmap_process_row records columns excludes w = (inr data, w') ->
  length data = length records.
Proof.
  induction records as [| row rest IH]; intros columns excludes w data w' H.
  - inversion H; reflexivity.
  - cbn [parmap_process_row] in H. unfold bind at 1 in H.
    destruct (process_row row columns excludes w) as [[e | x] w1];
      [discriminate |].
    unfold bind, ret in H.
    destruct (parmap_process_row rest columns excludes w1) as [[e | xs] w2] eqn:E;
      inversion H; subst. cbn. f_equal. eapply IH; eassumption.
Qed.

(** X13: transforming a batch makes no call to the database and leaves
    the cursor where it was, whether it returns or raises; when it
    returns, there is one result for every record. *)
Theorem batch_transform_is_local records columns excludes w r w' :
  parmap_process_row records columns excludes w = (r, w') ->
  db w' = db w /\ pending w' = pending w
  /\ db_events (trace w') = db_events (trace w)
  /\ (forall data, r = inr data -> length data = length records).
Proof.
  intros H. destruct (parmap_quiet _ _ _ _ _ _ H) as (Hd & Hp & He).
  repeat split; try assumption.
  intros data ->. eapply parmap_length; eassumption.
Qed.

(** ** The first matching pattern decides *)

Lemma match_patterns_hit row column before exclude after pattern s :
  (forall x, In x before -> exists p, re_compile x = inr p) ->
  row_lookup row column = Some (VStr s) ->
  re_compile exclude = inr pattern ->
  pattern_match pattern s = true ->
  match_patterns row column (before ++ exclude :: after) = inr true.
Proof.
  intros Hc Hv He Hm. induction before as [| x before IH]; cbn.
  - unfold rbind, row_getitem. now rewrite He, Hv, Hm.
  - destruct (Hc x (or_introl eq_refl)) as [p Ep].
    unfold rbind, row_getitem. rewrite Ep, Hv.
    destruct (pattern_match p s); [reflexivity |].
    apply IH. intros y Hy. apply Hc. now right.
Qed.

(** X14: once a pattern matches, nothing after it is looked at: when the
    rules before the matching one can be evaluated and the patterns
    before the matching one compile, the row is excluded whatever
    the later patterns and rules are, invalid ones included. *)
Theorem first_match_decides row earlier column before exclude after more later
        pattern s :
  Forall (rule_evaluable row) earlier ->
  (forall x, In x before -> exists p, re_compile x = inr p) ->
  row_lookup row column = Some (VStr s) ->
  re_compile exclude = inr pattern ->
  pattern_match pattern s = true ->
  match_definitions row
    (earlier ++ ((column, (before ++ exclude :: after)%list) :: more) :: later)
  = inr true.
Proof.
  intros Hev Hc Hv He Hm.
  induction Hev as [| definition earlier Hd _ IH]; cbn.
  - unfold rbind. rewrite String.eqb_refl.
    now rewrite (match_patterns_hit _ _ _ _ _ _ _ Hc Hv He Hm).
  - destruct Hd as (c & ps & Ek & Ed & Hp). unfold rbind. rewrite Ek, Ed.
    destruct Hp as [-> | [Hcomp Hval]]; [exact IH |].
    destruct (match_patterns_evaluable _ _ _ Hcomp Hval) as [-> | [-> _]];
      [reflexivity | exact IH].
Qed.

(** ** Tables one after the other *)

Lemma anonymize_tables_cons definition rest w :
  anonymize_tables (definition :: rest) w
  = match anonymize_tables [definition] w with
    | (inl e, w1) => (inl e, w1)
    | (inr _, w1) => anonymize_tables rest w1
    end.
Proof.
  cbn [anonymize_tables]. unfold bind, lift, ret. cbv beta.
  destruct (first_key definition) as [e | table_name]; [reflexivity |].
  destruct (dict_getitem definition table_name) as [e | td]; [reflexivity |].
  destruct (get_table_count table_name w) as [[e | total_count] w1];
    [reflexivity |].
  destruct (build_and_then_import_data _ _ _ _ _ _ _ w1) as [[e | []] w2];
    reflexivity.
Qed.

(** X15: the tables are anonymized one after the other and the first
    exception ends the run: the run over two lists of definitions is
    the run over the first list followed, when that one returns, by
    the run over the second list from the world it left. *)
Theorem anonymize_tables_app definitions1 definitions2 w :
  anonymize_tables (definitions1 ++ definitions2) w
  = match anonymize_tables definitions1 w with
    | (inl e, w1) => (inl e, w1)
    | (inr _, w1) => anonymize_tables definitions2 w1
    end.
Proof.
  revert w. induction definitions1 as [| definition rest IH]; intros w.
  - reflexivity.
  - cbn [app]. rewrite (anonymize_tables_cons definition rest),
      (anonymize_tables_cons definition (rest ++ definitions2)).
    destruct (anonymize_tables [definition] w) as [[e | u] w1];
      [reflexivity | apply IH].
Qed.

(** ** Edge cases of the run over a table *)

(** X16: a chunk size of 0 is found out late: the cursor is opened and
    the temporary table created before the division raises; nothing
    is fetched, loaded or merged. *)
Theorem zero_chunk_size table primary_key columns excludes search total_count
        names rows db1 w :
  let select := select_sql table primary_key names search in
  let create :=
    ctas_query ("tmp_" ++ table) table
      (sql_column_list
         (if String.eqb primary_key "" then DEFAULT_PRIMARY_KEY else primary_key)
         names) in
  get_column_names columns = inr names ->
  db_declare select (db w) = (inr rows, db1) ->
  fst (db_execute create db1) = None ->
  exists w',
    build_and_then_import_data table primary_key columns excludes search
      total_count 0 w = (inl ZeroDivisionError, w')
    /\ trace w' = List.app (trace w) [EvDeclare select; EvExecute create]
    /\ pending w' = rows.
Proof.
  intros select create Hn Hd Hx.
  destruct (db_execute create db1) as [outcome db2] eqn:Ex.
  cbn [fst] in Hx. subst outcome.
  eexists. split; [| split].
  - unfold build_and_then_import_data.
    unfold bind at 1. unfold lift at 1. rewrite Hn.
    unfold bind at 1. unfold declare at 1. unfold bind at 1, emit at 1.
    cbn [db pending pstate trace]. fold select. rewrite Hd.
    unfold bind at 1. unfold create_temporary_table at 1.
    unfold bind at 1. unfold lift at 1. rewrite Hn.
    unfold execute at 1. unfold bind at 1, emit at 1.
    cbn [db pending pstate trace]. fold create. rewrite Ex.
    unfold bind at 1. unfold lift at 1. cbn [batch_count Z.eqb].
    reflexivity.
  - cbn [trace]. rewrite <- !app_assoc. reflexivity.
  - reflexivity.
Qed.

Lemma declare_neutral sql w r w' :
  declare sql w = (r, w') ->
  fetches (trace w') = fetches (trace w)
  /\ copies (trace w') = copies (trace w)
  /\ statements (trace w') = statements (trace w).
Proof.
  intros H. apply declare_effect in H. destruct H as (_ & T & _).
  rewrite T, fetches_app, copies_app, statements_app. cbn.
  now rewrite !app_nil_r.
Qed.

(** X17: with a total count of 0 or less no batch is asked for: the run
    over the table fetches and loads nothing, whatever the query
    would return. *)
Theorem nothing_fetched_without_count table primary_key columns excludes search
        total_count chunk_size w r w' :
  (0 < chunk_size)%Z -> (total_count <= 0)%Z ->
  build_and_then_import_data table primary_key columns excludes search
    total_count chunk_size w = (r, w') ->
  fetches (trace w') = fetches (trace w)
  /\ copies (trace w') = copies (trace w).
Proof.
  intros Hc Ht H. unfold build_and_then_import_data in H.
  unfold bind at 1 in H. unfold lift at 1 in H.
  destruct (get_column_names columns) as [e | names];
    [inversion H; subst; auto |].
  unfold bind at 1 in H.
  destruct (declare _ w) as [[e | []] w1] eqn:E1;
    apply declare_neutral in E1; destruct E1 as (F1 & C1 & _);
    [inversion H; subst; auto |].
  unfold bind at 1 in H.
  destruct (create_temporary_table _ _ _ _ w1) as [[e | []] w2] eqn:E2;
    apply create_temporary_table_neutral in E2; destruct E2 as (_ & F2 & C2);
    [inversion H; subst; split; congruence |].
  unfold bind at 1 in H. unfold lift at 1 in H.
  destruct (batch_count_positive total_count chunk_size Hc) as (Eb & _ & _).
  rewrite Eb in H.
  assert (Hz : Z.to_nat (- (- total_count / chunk_size)) = 0%nat).
  { pose proof (Z.div_pos (- total_count) chunk_size). lia. }
  rewrite Hz in H. cbn [batch_loop] in H. unfold bind at 1, ret in H.
  apply apply_anonymized_data_neutral in H. destruct H as (_ & F3 & C3).
  split; congruence.
Qed.

(** ** What a run can have written, however it ends *)




(** ** A batch of excluded rows *)

Lemma parmap_all_excluded records columns excludes w :
  Forall (fun row => row_matches_excludes row excludes = inr true) records ->
  parmap_process_row records columns excludes w
  = (inr (map (fun _ => None) records), w).
Proof.
  induction 1 as [| row rest Hr _ IH]; [reflexivity |].
  cbn [parmap_process_row map]. unfold bind at 1.
  unfold process_row at 1. unfold bind at 1. unfold lift at 1. rewrite Hr.
  unfold ret at 1. unfold bind. rewrite IH. reflexivity.
Qed.

Lemma filter_none_all_none {A : Type} (l : list A) :
  filter_none (map (fun _ => None) l) = [].
Proof. induction l; [reflexivity | exact IHl]. Qed.

(** X19: a batch whose rows are all excluded is still handed to the bulk
    load, as the empty text: after the fetch the loop loads nothing
    into the temporary table and goes on with the next batch. *)
Theorem excluded_batch_loads_empty_text batches temp columns excludes chunk_size w :
  (0 <= chunk_size)%Z ->
  firstn (Z.to_nat chunk_size) (pending w) <> [] ->
  Forall (fun row => row_matches_excludes row excludes = inr true)
    (firstn (Z.to_nat chunk_size) (pending w)) ->
  batch_loop (S batches) temp columns excludes chunk_size w
  = (copy_from [] temp ;;;
     batch_loop batches temp columns excludes chunk_size)
      (after_fetch chunk_size w)
  /\ data2csv COPY_DB_DELIMITER [] = "".
Proof.
  intros Hc Hne Hx. split; [| reflexivity].
  cbn [batch_loop]. unfold bind at 1. rewrite (fetchmany_effect _ _ Hc).
  fold (after_fetch chunk_size w).
  destruct (firstn (Z.to_nat chunk_size) (pending w)) as [| r0 b] eqn:E;
    [exfalso; apply Hne; first [exact E | reflexivity] |].
  unfold bind at 1. rewrite (parmap_all_excluded _ _ _ _ Hx).
  rewrite filter_none_all_none. reflexivity.
Qed.

(** ** [truncate_tables] *)

Lemma string_app_empty (s : string) : s ++ "" = s.
Proof. induction s as [| c s IH]; cbn; congruence. Qed.

Lemma string_app_app (x y z : string) : (x ++ y) ++ z = x ++ y ++ z.
Proof. induction x as [| c x IH]; cbn; congruence. Qed.

Lemma occurs_in_join t (tables : list string) :
  In t tables -> occurs_in t (join ", " tables).
Proof.
  induction tables as [| x rest IH]; intros Hin; [destruct Hin |].
  destruct rest as [| y rest].
  - destruct Hin as [-> | []]. exists "", "". cbn.
    now rewrite string_app_empty.
  - change (join ", " (x :: y :: rest))
      with (x ++ ", " ++ join ", " (y :: rest)).
    destruct Hin as [-> | Hin].
    + exists "", (", " ++ join ", " (y :: rest)). reflexivity.
    + destruct (IH Hin) as (before & after & E).
      exists (x ++ ", " ++ before), after. rewrite E.
      now rewrite !string_app_app.
Qed.

(** X20: without tables [truncate_tables] makes no call at all; with
    tables it runs one statement that names every one of them, so
    the tables are truncated together or not at all.  The cursor of
    the rows and the providers are left alone. *)
Theorem truncate_tables_calls tables w r w' :
  truncate_tables tables w = (r, w') ->
  pending w' = pending w /\ pstate w' = pstate w
  /\ match or_empty tables with
     | [] => r = inr tt /\ w' = w
     | names =>
         exists sql,
           trace w' = List.app (trace w) [EvExecute sql]
           /\ forall t, In t names -> occurs_in t sql
     end.
Proof.
  unfold truncate_tables. destruct (or_empty tables) as [| t more] eqn:E.
  - intros H. inversion H; subst. auto.
  - intros H. apply execute_effect in H. destruct H as (P & S & T & _).
    split; [exact P |]. split; [exact S |].
    eexists. split; [exact T |].
    intros x Hx. destruct (occurs_in_join x (t :: more) Hx) as (b & a & Eq).
    exists ("TRUNCATE TABLE " ++ b), (a ++ ";"). rewrite Eq.
    now rewrite !string_app_app.
Qed.

End Anonymizer.

Arguments db {provider_config PState DB} w.
Arguments pending {provider_config PState DB} w.
Arguments pstate {provider_config PState DB} w.
Arguments trace {provider_config PState DB} w.
Arguments cd_provider {provider_config} c.
Arguments cd_append {provider_config} c.
Arguments EvExecute {provider_config} sql.
Arguments EvDeclare {provider_config} sql.
Arguments EvFetch {provider_config} size records.
Arguments EvCopy {provider_config} table data.
Arguments EvGetProvider {provider_config} column config.
Arguments EvAlter {provider_config} column orig.
Arguments db_events {provider_config} tr.
Arguments calls_for {provider_config} column tr.
Arguments fetches {provider_config} tr.
Arguments copies {provider_config} tr.
Arguments statements {provider_config} tr.
Arguments rule_calls {provider_config} row definition.
Arguments after_fetch {provider_config PState DB} size w.

(* ===================================================================== *)
(** * The bulk encoder *)
(* ===================================================================== *)

(** The escaping of one character, read off the four replacements. *)
Definition escape_char (c : ascii) : string :=
  if Ascii.eqb c backslash then String backslash (str1 backslash)
  else if Ascii.eqb c LF then String backslash "n"
  else if Ascii.eqb c CR then String backslash "r"
  else if Ascii.eqb c TAB then String backslash "t"
  else str1 c.

Fixpoint escape_chars (s : string) : string :=
  match s with
  | EmptyString => EmptyString
  | String c s' => escape_char c ++ escape_chars s'
  end.

(** The text of a field as the encoder hands it to the writer. *)
Definition field_text (x : value) : string :=
  match x with
  | VNone => String backslash "N"
  | VStr s => escape_chars (strip s)
  | VDict d => escape_chars (json_dumps (JDict d))
  | VInt z => str_int z
  | VBool true => "True"
  | VBool false => "False"
  end.

(** The encoder in the words of the specification: a backslash is put
    in front of every backslash, newline, carriage return and tab. *)
Definition prefix_escape_char (c : ascii) : string :=
  if Ascii.eqb c backslash || Ascii.eqb c LF || Ascii.eqb c CR || Ascii.eqb c TAB
  then String backslash (str1 c)
  else str1 c.

Fixpoint prefix_escape (s : string) : string :=
  match s with
  | EmptyString => EmptyString
  | String c s' => prefix_escape_char c ++ prefix_escape s'
  end.

Definition field_text_spec (x : value) : string :=
  match x with
  | VNone => String backslash "N"
  | VStr s => prefix_escape (strip s)
  | VDict d => prefix_escape (json_dumps (JDict d))
  | VInt z => str_int z
  | VBool true => "True"
  | VBool false => "False"
  end.

Definition data2csv_spec (delimiter : ascii) (data : list Row) : string :=
  String.concat ""
    (map (fun row => join (str1 delimiter) (map field_text_spec (row_values row))
                     ++ str1 LF) data).

(** [s.replace(a, new)] for a one-character [a], as a map over [s]. *)
Fixpoint subst_char (a : ascii) (new s : string) : string :=
  match s with
  | EmptyString => EmptyString
  | String c s' => (if Ascii.eqb c a then new else str1 c) ++ subst_char a new s'
  end.

Lemma prefix_empty s : String.prefix "" s = true.
Proof. destruct s; reflexivity. Qed.

Lemma replace_one_char a new s : replace (str1 a) new s = subst_char a new s.
Proof.
  unfold replace, str1.
  induction s as [| c s IH]; simpl; [reflexivity |].
  destruct (ascii_dec a c) as [-> | Hne].
  - rewrite prefix_empty, Ascii.eqb_refl, IH. reflexivity.
  - destruct (Ascii.eqb_spec c a) as [-> | _]; [congruence |].
    rewrite IH. reflexivity.
Qed.

Lemma string_app_assoc (x y z : string) : (x ++ y) ++ z = x ++ (y ++ z).
Proof. induction x as [| c x IH]; simpl; [reflexivity | now rewrite IH]. Qed.

Lemma subst_char_app a new x y :
  subst_char a new (x ++ y) = subst_char a new x ++ subst_char a new y.
Proof.
  induction x as [| c x IH]; simpl; [reflexivity |].
  rewrite IH, string_app_assoc. reflexivity.
Qed.

Lemma escape_one_char (c : ascii) :
  subst_char TAB (String backslash "t")
    (subst_char CR (String backslash "r")
       (subst_char LF (String backslash "n")
          (if Ascii.eqb c backslash then String backslash (str1 backslash)
           else str1 c)))
  = escape_char c.
Proof.
  destruct c as [[] [] [] [] [] [] [] []]; reflexivity.
Qed.

(** The four replacements of [escape_str_replace] amount to one pass
    that doubles a backslash and writes a newline, a carriage return
    and a tab as a backslash followed by the letter n, r and t. *)
Lemma escape_str_replace_chars (s : string) :
  escape_str_replace s = escape_chars s.
Proof.
  unfold escape_str_replace. rewrite !replace_one_char.
  induction s as [| c s IH]; [reflexivity |].
  cbn [subst_char escape_chars].
  rewrite !subst_char_app, IH, escape_one_char. reflexivity.
Qed.

Lemma contains_app c x y : contains c (x ++ y) = contains c x || contains c y.
Proof.
  induction x as [| d x IH]; simpl; [reflexivity |].
  rewrite IH, orb_assoc. reflexivity.
Qed.

Lemma escape_char_no_LF c : contains LF (escape_char c) = false.
Proof. destruct c as [[] [] [] [] [] [] [] []]; reflexivity. Qed.

Lemma escape_chars_no_LF s : contains LF (escape_chars s) = false.
Proof.
  induction s as [| c s IH]; [reflexivity |].
  simpl. rewrite contains_app, escape_char_no_LF, IH. reflexivity.
Qed.

Lemma string_of_uint_no_LF d : contains LF (NilEmpty.string_of_uint d) = false.
Proof. induction d; simpl; auto. Qed.

Lemma str_int_no_LF z : contains LF (str_int z) = false.
Proof.
  unfold str_int. destruct (Z.to_int z); simpl; apply string_of_uint_no_LF.
Qed.

Lemma field_text_no_LF x : contains LF (field_text x) = false.
Proof.
  destruct x as [| s | z | [] | d]; simpl;
    auto using escape_chars_no_LF, str_int_no_LF.
Qed.

Lemma csv_text_encode_value x : csv_text (encode_value x) = field_text x.
Proof.
  destruct x as [| s | z | [] | d]; simpl;
    rewrite ?escape_str_replace_chars; reflexivity.
Qed.

Lemma csv_needs_quote_contains d q s :
  csv_needs_quote d q s = contains d s || contains q s || contains LF s.
Proof.
  induction s as [| c s IH]; [reflexivity |].
  cbn [csv_needs_quote contains]. rewrite IH. unfold csv_special.
  rewrite (Ascii.eqb_sym c d), (Ascii.eqb_sym c q), (Ascii.eqb_sym c LF).
  generalize (Ascii.eqb d c), (Ascii.eqb q c), (Ascii.eqb LF c),
    (contains d s), (contains q s), (contains LF s).
  intros [] [] [] [] [] []; reflexivity.
Qed.

(** A field is plain when the writer has no reason to quote it. *)
Definition plain_field (delimiter : ascii) (x : value) : Prop :=
  contains delimiter (field_text x) = false
  /\ contains tilde (field_text x) = false.

Definition plain_row (delimiter : ascii) (row : Row) : Prop :=
  (forall x, In x (row_values row) -> plain_field delimiter x)
  /\ (forall x, row_values row = [x] -> field_text x <> "").

Lemma csv_field_plain delimiter x :
  plain_field delimiter x ->
  csv_field delimiter tilde (csv_text (encode_value x)) = field_text x.
Proof.
  intros [Hd Hq]. unfold csv_field.
  rewrite csv_text_encode_value, csv_needs_quote_contains, Hd, Hq,
    field_text_no_LF. reflexivity.
Qed.

Lemma map_csv_field_plain delimiter (xs : list value) :
  (forall x, In x xs -> plain_field delimiter x) ->
  map (fun x => csv_field delimiter tilde (csv_text x)) (map encode_value xs)
  = map field_text xs.
Proof.
  induction xs as [| x xs IH]; intros H; [reflexivity |].
  simpl. rewrite csv_field_plain by (apply H; now left).
  rewrite IH by (intros y Hy; apply H; now right). reflexivity.
Qed.

Lemma app_not_empty (x : string) c y : x ++ String c y <> "".
Proof. destruct x; discriminate. Qed.

Lemma csv_writerow_rec delimiter q (fields : list value) :
  let rec := join (str1 delimiter)
               (map (fun x => csv_field delimiter q (csv_text x)) fields) in
  (fields <> [] -> rec <> "") ->
  csv_writerow delimiter q fields = rec ++ str1 LF.
Proof.
  intros rec H. unfold csv_writerow. fold rec.
  destruct fields as [| x xs]; [reflexivity |].
  destruct rec; [| reflexivity].
  exfalso. apply H; [discriminate | reflexivity].
Qed.

Lemma join_cons2 sep a b (l : list string) :
  join sep (a :: b :: l) = a ++ sep ++ join sep (b :: l).
Proof. reflexivity. Qed.

Lemma csv_writerow_plain delimiter (xs : list value) :
  (forall x, In x xs -> plain_field delimiter x) ->
  (forall x, xs = [x] -> field_text x <> "") ->
  csv_writerow delimiter tilde (map encode_value xs)
  = join (str1 delimiter) (map field_text xs) ++ str1 LF.
Proof.
  intros Hplain Hone.
  rewrite csv_writerow_rec; rewrite map_csv_field_plain by assumption;
    [reflexivity |].
  intros Hne. destruct xs as [| x [| y ys]].
  - exfalso. apply Hne. reflexivity.
  - simpl. apply Hone. reflexivity.
  - cbn [map]. rewrite join_cons2. apply app_not_empty.
Qed.

(** C3, amended: the encoder writes null as backslash-N, a string
    stripped and with every backslash doubled and every newline,
    carriage return and tab replaced by a backslash and the letter n,
    r or t, a dict as its JSON text escaped in the same way, and any
    other value as its text; the fields of a row are joined by the
    delimiter and the row ends with a newline.  This holds for rows
    whose encoded fields contain neither the delimiter nor the quote
    character of the writer and that are not a single empty field. *)
Theorem data2csv_plain delimiter (data : list Row) :
  (forall row, In row data -> plain_row delimiter row) ->
  data2csv delimiter data
  = String.concat ""
      (map (fun row => join (str1 delimiter) (map field_text (row_values row))
                       ++ str1 LF) data).
Proof.
  intros H. unfold data2csv. f_equal.
  apply map_ext_in. intros row Hin.
  destruct (H row Hin) as [Hp Ho].
  apply csv_writerow_plain; assumption.
Qed.


(* ===================================================================== *)
(** * More on the bulk encoder *)
(* ===================================================================== *)

(** The reading of the four sequences that [escape_str_replace] writes:
    a backslash takes the next character with it, and the letters n, r
    and t after it stand for newline, carriage return and tab. *)
Fixpoint copy_unescape (s : string) : string :=
  match s with
  | EmptyString => EmptyString
  | String c s' =>
      if Ascii.eqb c backslash then
        match s' with
        | EmptyString => str1 c
        | String d s'' =>
            String (if Ascii.eqb d "n" then LF
                    else if Ascii.eqb d "r" then CR
                    else if Ascii.eqb d "t" then TAB
                    else d)
                   (copy_unescape s'')
        end
      else String c (copy_unescape s')
  end.

Fixpoint count_char (c : ascii) (s : string) : nat :=
  match s with
  | EmptyString => 0
  | String d s' => (if Ascii.eqb c d then 1 else 0) + count_char c s'
  end.

Fixpoint all_space (s : string) : bool :=
  match s with
  | EmptyString => true
  | String c s' => is_space c && all_space s'
  end.

Lemma escape_chars_app x y :
  escape_chars (x ++ y) = escape_chars x ++ escape_chars y.
Proof.
  induction x as [| c x IH]; simpl; [reflexivity |].
  now rewrite IH, string_app_assoc.
Qed.

(** X1: the four replacements in a row act as one pass over the text: no
    replacement touches what an earlier one wrote, so the result is
    the escaping of each character by itself and the function
    distributes over concatenation. *)
Theorem escape_one_pass (s t : string) :
  escape_str_replace s = escape_chars s
  /\ escape_str_replace (s ++ t) = escape_str_replace s ++ escape_str_replace t.
Proof.
  split; [apply escape_str_replace_chars |].
  rewrite !escape_str_replace_chars. apply escape_chars_app.
Qed.

Lemma copy_unescape_escape_chars s : copy_unescape (escape_chars s) = s.
Proof.
  induction s as [| c s IH]; [reflexivity |].
  destruct c as [[] [] [] [] [] [] [] []]; cbn; rewrite IH; reflexivity.
Qed.

(** X2: escaping loses nothing: reading the sequences back gives the text
    that was escaped. *)
Theorem escape_round_trip (s : string) :
  copy_unescape (escape_str_replace s) = s.
Proof.
  rewrite escape_str_replace_chars. apply copy_unescape_escape_chars.
Qed.

Lemma escape_str_replace_injective (s t : string) :
  escape_str_replace s = escape_str_replace t -> s = t.
Proof.
  intros H. rewrite !escape_str_replace_chars in H.
  rewrite <- (copy_unescape_escape_chars s), H.
  apply copy_unescape_escape_chars.
Qed.

Lemma escape_char_no_control c k :
  In k [LF; CR; TAB] -> contains k (escape_char c) = false.
Proof.
  intros [<- | [<- | [<- | []]]];
    destruct c as [[] [] [] [] [] [] [] []]; reflexivity.
Qed.

Lemma escape_chars_no_control s k :
  In k [LF; CR; TAB] -> contains k (escape_chars s) = false.
Proof.
  intros Hk. induction s as [| c s IH]; [reflexivity |].
  simpl. now rewrite contains_app, escape_char_no_control, IH.
Qed.

Lemma string_of_uint_no_control d k :
  In k [LF; CR; TAB] -> contains k (NilEmpty.string_of_uint d) = false.
Proof.
  intros [<- | [<- | [<- | []]]]; induction d; simpl; auto.
Qed.

(** X3: no field of the bulk text holds a raw newline, carriage return or
    tab, whatever the value was: control characters of strings and of
    JSON texts are written as escape sequences. *)
Theorem encoded_field_no_control (x : value) (k : ascii) :
  In k [LF; CR; TAB] -> contains k (csv_text (encode_value x)) = false.
Proof.
  intros Hk. rewrite csv_text_encode_value.
  destruct x as [| s | z | [] | d]; cbn [field_text].
  - destruct Hk as [<- | [<- | [<- | []]]]; reflexivity.
  - now apply escape_chars_no_control.
  - unfold str_int. destruct (Z.to_int z); simpl.
    + now apply string_of_uint_no_control.
    + rewrite string_of_uint_no_control by assumption.
      destruct Hk as [<- | [<- | [<- | []]]]; reflexivity.
  - destruct Hk as [<- | [<- | [<- | []]]]; reflexivity.
  - destruct Hk as [<- | [<- | [<- | []]]]; reflexivity.
  - now apply escape_chars_no_control.
Qed.

Lemma escape_chars_not_null s : escape_chars s <> String backslash "N".
Proof.
  destruct s as [| c s]; [discriminate |].
  destruct c as [[] [] [] [] [] [] [] []]; cbn; discriminate.
Qed.

Lemma string_of_uint_not_null d s :
  NilEmpty.string_of_uint d <> String backslash s.
Proof. destruct d; discriminate. Qed.

(** X4: the null marker is written for null and for nothing else: no
    string, number, boolean or dict is encoded as backslash-N. *)
Theorem null_marker_only_for_null (x : value) :
  csv_text (encode_value x) = String backslash "N" <-> x = VNone.
Proof.
  split; [| intros ->; reflexivity].
  rewrite csv_text_encode_value.
  destruct x as [| s | z | b | d]; cbn [field_text]; intros H.
  - reflexivity.
  - exfalso. exact (escape_chars_not_null _ H).
  - exfalso. unfold str_int in H. destruct (Z.to_int z); simpl in H.
    + exact (string_of_uint_not_null _ _ H).
    + discriminate H.
  - destruct b; discriminate H.
  - exfalso. exact (escape_chars_not_null _ H).
Qed.

Lemma concat_empty_app (l1 l2 : list string) :
  String.concat "" (l1 ++ l2) = String.concat "" l1 ++ String.concat "" l2.
Proof.
  induction l1 as [| x l1 IH]; [reflexivity |].
  destruct l1 as [| y l1].
  - cbn [app]. destruct l2 as [| z l2]; cbn.
    + induction x; simpl; congruence.
    + reflexivity.
  - change (String.concat "" ((x :: y :: l1) ++ l2))
      with (x ++ "" ++ String.concat "" ((y :: l1) ++ l2)).
    rewrite IH. cbn. now rewrite string_app_assoc.
Qed.

(** X6: the text of two batches in a row is the text of the two batches
    taken together: the encoding of a row does not depend on the rows
    around it. *)
Theorem data2csv_app delimiter (data1 data2 : list Row) :
  data2csv delimiter (data1 ++ data2)
  = data2csv delimiter data1 ++ data2csv delimiter data2.
Proof.
  unfold data2csv. rewrite map_app. apply concat_empty_app.
Qed.

Lemma count_char_app c x y :
  count_char c (x ++ y) = count_char c x + count_char c y.
Proof.
  induction x as [| d x IH]; [reflexivity |].
  simpl. rewrite IH. apply Nat.add_assoc.
Qed.

Lemma count_char_absent c s : contains c s = false -> count_char c s = 0.
Proof.
  induction s as [| d s IH]; [reflexivity |].
  simpl. destruct (Ascii.eqb c d); [discriminate |]. exact IH.
Qed.

Lemma csv_double_contains q c s :
  contains c (csv_double q s) = contains c s.
Proof.
  induction s as [| d s IH]; [reflexivity |].
  simpl. destruct (Ascii.eqb d q); simpl; rewrite IH;
    destruct (Ascii.eqb c d); reflexivity.
Qed.

Lemma csv_field_no_newline delimiter q s :
  q <> LF -> contains LF s = false ->
  contains LF (csv_field delimiter q s) = false.
Proof.
  intros Hq Hs. unfold csv_field.
  destruct (csv_needs_quote delimiter q s); [| exact Hs].
  unfold csv_quoted, str1. cbn [contains].
  rewrite contains_app, csv_double_contains, Hs. cbn [contains].
  destruct (Ascii.eqb_spec LF q); [congruence | reflexivity].
Qed.

Lemma join_no_newline delimiter (parts : list string) :
  delimiter <> LF ->
  (forall p, In p parts -> contains LF p = false) ->
  contains LF (join (str1 delimiter) parts) = false.
Proof.
  intros Hd. induction parts as [| p rest IH]; intros H; [reflexivity |].
  destruct rest as [| p' rest].
  - apply H. now left.
  - rewrite join_cons2, !contains_app, (H p (or_introl eq_refl)).
    rewrite IH by (intros x Hx; apply H; now right).
    unfold str1. cbn [contains].
    destruct (Ascii.eqb_spec LF delimiter); [congruence | reflexivity].
Qed.

Lemma csv_writerow_one_newline delimiter (xs : list value) :
  delimiter <> LF ->
  count_char LF (csv_writerow delimiter tilde (map encode_value xs)) = 1.
Proof.
  intros Hd.
  assert (Hrec : contains LF
                   (join (str1 delimiter)
                      (map (fun x => csv_field delimiter tilde (csv_text x))
                         (map encode_value xs))) = false).
  { apply join_no_newline; [exact Hd |].
    intros p Hp. rewrite map_map in Hp. apply in_map_iff in Hp.
    destruct Hp as (x & <- & _).
    apply csv_field_no_newline; [discriminate |].
    apply encoded_field_no_control. now left. }
  unfold csv_writerow.
  destruct (map encode_value xs) as [| y ys];
    [reflexivity |].
  destruct (join _ _) as [| c rec] eqn:E; [reflexivity |].
  rewrite count_char_app, (count_char_absent _ _ Hrec). reflexivity.
Qed.

(** X5: the bulk text has one newline for every row and no other: a value
    never breaks a line, also when the writer quotes the field. *)
Theorem data2csv_one_line_per_row delimiter (data : list Row) :
  delimiter <> LF ->
  count_char LF (data2csv delimiter data) = length data.
Proof.
  intros Hd. induction data as [| row data IH]; [reflexivity |].
  change (row :: data) with ([row] ++ data)%list.
  rewrite data2csv_app, count_char_app, IH.
  unfold data2csv. cbn [map String.concat].
  now rewrite csv_writerow_one_newline.
Qed.

Lemma rstrip_idempotent s : rstrip (rstrip s) = rstrip s.
Proof.
  induction s as [| c s IH]; [reflexivity |].
  cbn [rstrip]. destruct (rstrip s) as [| a r] eqn:E.
  - destruct (is_space c) eqn:Ec; [reflexivity |].
    cbn. now rewrite Ec.
  - cbn [rstrip]. cbn [rstrip] in IH. rewrite IH. reflexivity.
Qed.

(** The text is empty or starts with a character that is no space. *)
Definition headed (s : string) : Prop :=
  match s with
  | EmptyString => True
  | String c _ => is_space c = false
  end.

Lemma lstrip_headed s : headed (lstrip s).
Proof.
  induction s as [| c s IH]; [exact I |].
  simpl. destruct (is_space c) eqn:E; [exact IH | exact E].
Qed.

Lemma rstrip_headed s : headed s -> headed (rstrip s).
Proof.
  destruct s as [| c s]; [trivial |].
  cbn [headed rstrip]. intros Hc.
  destruct (rstrip s); [rewrite Hc |]; exact Hc.
Qed.

Lemma lstrip_of_headed s : headed s -> lstrip s = s.
Proof. destruct s as [| c s]; [trivial |]. simpl. now intros ->. Qed.

Lemma strip_idempotent s : strip (strip s) = strip s.
Proof.
  unfold strip.
  rewrite (lstrip_of_headed (rstrip (lstrip s)))
    by apply rstrip_headed, lstrip_headed.
  apply rstrip_idempotent.
Qed.

Lemma lstrip_all_space s : all_space s = true -> lstrip s = "".
Proof.
  induction s as [| c s IH]; [reflexivity |].
  simpl. destruct (is_space c); [exact IH | discriminate].
Qed.

(** X7: the encoder does not see the white space around a string: a
    string and its stripped form are encoded alike, and a string of
    white space only is encoded as the empty string. *)
Theorem encode_ignores_outer_space (s : string) :
  encode_value (VStr (strip s)) = encode_value (VStr s)
  /\ (all_space s = true -> encode_value (VStr s) = VStr "").
Proof.
  split.
  - cbn [encode_value]. now rewrite strip_idempotent.
  - intros H. cbn [encode_value]. unfold strip.
    now rewrite (lstrip_all_space s H).
Qed.

(* ===================================================================== *)
(** * A sample installation *)
(* ===================================================================== *)

(** Collaborators small enough to run: a registry of three providers
    over a counter, a matcher for a subset of the pattern syntax
    (literals, [.], [\S], escaped characters and [*]; the patterns used
    below mean the same to [re]) and a server that keeps the rows of
    one table and answers every bulk load with a scripted outcome. *)
Module Demo.

Definition get_provider (config : option string) : result string :=
  match config with
  | Some name =>
      if String.eqb name "set" || String.eqb name "mask" || String.eqb name "count"
      then inr name
      else inl (ProviderError name)
  | None => inl (ProviderError "")
  end.

Fixpoint mask (s : string) : string :=
  match s with
  | EmptyString => EmptyString
  | String _ s' => String "X" (mask s')
  end.

Definition alter_value (p : string) (v : value) (n : nat) : result value * nat :=
  if String.eqb p "set" then (inr (VStr "x"), n)
  else if String.eqb p "count" then (inr (VStr (str_int (Z.of_nat n))), S n)
  else match v with
       | VStr s => (inr (VStr (mask s)), n)
       | _ => (inl (TypeError "object has no len()"), n)
       end.

Inductive atom : Type :=
| Lit (c : ascii)
| AnyChar
| NonSpace.

Definition pattern : Type := list (atom * bool).

Definition is_meta (c : ascii) : bool :=
  contains c "()[]{}+?|^$".

Fixpoint parse (s : string) (acc : pattern) : result pattern :=
  match s with
  | EmptyString => inr (rev acc)
  | String c s' =>
      if Ascii.eqb c backslash then
        match s' with
        | EmptyString => inl (ReError "bad escape (end of pattern)")
        | String d s'' =>
            parse s'' ((if Ascii.eqb d "S" then NonSpace else Lit d, false) :: acc)
        end
      else if Ascii.eqb c "*" then
        match acc with
        | (a, false) :: acc' => parse s' ((a, true) :: acc')
        | (_, true) :: _ => inl (ReError "multiple repeat")
        | [] => inl (ReError "nothing to repeat")
        end
      else if is_meta c then inl (ReError "missing ), unterminated subpattern")
      else parse s' ((if Ascii.eqb c "." then AnyChar else Lit c, false) :: acc)
  end.

Definition re_compile (exclude : string) : result pattern := parse exclude [].

Definition lower (c : ascii) : ascii :=
  let n := nat_of_ascii c in
  if ((65 <=? n) && (n <=? 90))%nat then ascii_of_nat (n + 32) else c.

Definition atom_ok (a : atom) (c : ascii) : bool :=
  match a with
  | Lit d => Ascii.eqb (lower c) (lower d)
  | AnyChar => negb (Ascii.eqb c LF)
  | NonSpace => negb (is_space c)
  end.

Fixpoint pattern_match (p : pattern) : string -> bool :=
  match p with
  | [] => fun _ => true
  | (a, false) :: rest =>
      fun s => match s with
               | EmptyString => false
               | String c s' => atom_ok a c && pattern_match rest s'
               end
  | (a, true) :: rest =>
      fix star (s : string) : bool :=
        pattern_match rest s
        || match s with
           | EmptyString => false
           | String c s' => atom_ok a c && star s'
           end
  end.

Record store : Type := {
  table_rows : list Row;
  copy_outcome : option exn
}.

Definition db_execute (sql : string) (s : store) : option exn * store := (None, s).

Definition db_declare (sql : string) (s : store) : result (list Row) * store :=
  (inr (table_rows s), s).

Definition db_count (sql : string) (s : store) : result Z * store :=
  (inr (Z.of_nat (length (table_rows s))), s).

Definition db_copy_from (data table : string) (sep : ascii) (null : string)
           (s : store) : option exn * store :=
  (copy_outcome s, s).

Definition delimiter : ascii := ascii_of_nat 31.

Definition world : Type := World string nat store.

(** A session on a table with the given rows. *)
Definition session (rows : list Row) (outcome : option exn) : world :=
  {| db := {| table_rows := rows; copy_outcome := outcome |};
     pending := []; pstate := 0%nat; trace := [] |}.

Definition run_process_row :=
  process_row string string nat get_provider alter_value pattern re_compile
    pattern_match store.

Definition run_get_column_values :=
  get_column_values string string nat get_provider alter_value store.

Definition run_copy_from :=
  copy_from string nat store db_copy_from delimiter.


Definition run_table :=
  build_and_then_import_data string string nat get_provider alter_value
    pattern re_compile pattern_match store db_execute db_declare db_copy_from
    delimiter "id".

Definition run_tables :=
  anonymize_tables string string nat get_provider alter_value pattern
    re_compile pattern_match store db_execute db_declare db_count db_copy_from
    delimiter 2000%Z "id".

Definition with_provider (name : string) (suffix : option string)
  : column_definition string :=
  {| cd_provider := Some name; cd_append := suffix |}.

Definition mask_email : rule string :=
  [("email", with_provider "mask" (Some "@localhost"))].

Definition set_email : rule string :=
  [("email", with_provider "set" (Some "@localhost"))].

Definition count_name : rule string := [("name", with_provider "count" None)].

Definition ann : Row :=
  [("id", VInt 1); ("email", VStr "ann@x.org"); ("name", VStr "Ann")].

Definition ann_masked : Row :=
  [("id", VInt 1); ("email", VStr "XXXXXXXXX@localhost"); ("name", VStr "0")].

Definition bob : Row :=
  [("id", VInt 2); ("email", VStr ""); ("name", VNone)].

Definition cat : Row :=
  [("id", VInt 3); ("email", VStr "Cat@Example.com"); ("name", VStr "Cat")].

Definition idle : Row :=
  [("id", VInt 4); ("visits", VInt 0); ("active", VBool false); ("prefs", VDict [])].

Definition idle_rules : list (rule string) :=
  [[("visits", with_provider "set" None)];
   [("active", with_provider "set" None)];
   [("prefs", with_provider "set" None)]].

(** Rows as the query of the table [users] returns them. *)
Definition u1 : Row := [("id", VInt 1); ("email", VStr "ann@x.org")].
Definition u2 : Row := [("id", VInt 2); ("email", VStr "bob@x.org")].
Definition u3 : Row := [("id", VInt 3); ("email", VStr "cat@x.org")].


(** [{'email': ['\S.*@example\.com']}] *)
Definition example_com : exclude_definition :=
  [("email", [String backslash "S.*@example" ++ String backslash ".com"])].

Definition users (excludes : option (list exclude_definition)) (chunk : Z)
  : pydict (table_definition string) :=
  [("users", {| td_fields := Some [mask_email];
                td_excludes := excludes;
                td_search := None;
                td_primary_key := None;
                td_chunk_size := Some chunk |})].

End Demo.

(* ===================================================================== *)
(** * The theorems at work *)
(* ===================================================================== *)

Lemma process_row_frame_witness :
  Demo.run_process_row Demo.ann [Demo.mask_email; Demo.count_name] None
    (Demo.session [] None)
  = (inr (Some Demo.ann_masked),
     snd (Demo.run_process_row Demo.ann [Demo.mask_email; Demo.count_name] None
            (Demo.session [] None)))
  /\ (map fst Demo.ann_masked = map fst Demo.ann
      /\ (forall i k v, nth_error Demo.ann i = Some (k, v) ->
                        ~ In k (rule_names [Demo.mask_email; Demo.count_name]) ->
                        nth_error Demo.ann_masked i = Some (k, v))
      /\ (forall c, ~ In c (rule_names [Demo.mask_email; Demo.count_name]) ->
                    row_get Demo.ann_masked c = row_get Demo.ann c)).
Proof.
  split; [reflexivity |].
  apply (process_row_frame string string nat Demo.get_provider Demo.alter_value
           Demo.pattern Demo.re_compile Demo.pattern_match Demo.store
           Demo.ann [Demo.mask_email; Demo.count_name] None (Demo.session [] None)
           Demo.ann_masked
           (snd (Demo.run_process_row Demo.ann [Demo.mask_email; Demo.count_name]
                   None (Demo.session [] None)))).
  reflexivity.
Defined.

Lemma skip_null_or_empty_witness :
  (row_get Demo.bob "email" = VNone \/ row_get Demo.bob "email" = VStr "")
  /\ Demo.run_process_row Demo.bob [Demo.mask_email; Demo.count_name] None
       (Demo.session [] None)
     = (inr (Some Demo.bob), Demo.session [] None)
  /\ (calls_for "email" (trace (Demo.session [] None))
      = calls_for "email" (trace (Demo.session [] None))
      /\ (forall d w1,
             Demo.run_get_column_values Demo.bob [Demo.mask_email; Demo.count_name]
               (Demo.session [] None) = (inr d, w1) ->
             dict_get d "email" = None)
      /\ (forall row', inr (Some Demo.bob) = inr (A:=exn) (Some row') ->
                       row_get row' "email" = row_get Demo.bob "email"
                       /\ forall i v, nth_error Demo.bob i = Some ("email", v) ->
                                      nth_error row' i = Some ("email", v))).
Proof.
  split; [right; reflexivity |]. split; [reflexivity |].
  apply (skip_null_or_empty string string nat Demo.get_provider Demo.alter_value
           Demo.pattern Demo.re_compile Demo.pattern_match Demo.store
           Demo.bob [Demo.mask_email; Demo.count_name] None (Demo.session [] None)
           "email" (inr (Some Demo.bob)) (Demo.session [] None)).
  - right; reflexivity.
  - reflexivity.
Defined.

Lemma skip_every_false_value_witness :
  In (row_get Demo.idle "visits") [VNone; VStr ""; VInt 0; VBool false; VDict []]
  /\ Demo.run_process_row Demo.idle Demo.idle_rules None (Demo.session [] None)
     = (inr (Some Demo.idle), Demo.session [] None)
  /\ (calls_for "visits" (trace (Demo.session [] None))
      = calls_for "visits" (trace (Demo.session [] None))
      /\ (forall d w1,
             Demo.run_get_column_values Demo.idle Demo.idle_rules
               (Demo.session [] None) = (inr d, w1) ->
             dict_get d "visits" = None)
      /\ (forall row', inr (Some Demo.idle) = inr (A:=exn) (Some row') ->
                       row_get row' "visits" = row_get Demo.idle "visits"
                       /\ forall i v, nth_error Demo.idle i = Some ("visits", v) ->
                                      nth_error row' i = Some ("visits", v))).
Proof.
  split; [simpl; auto |]. split; [reflexivity |].
  apply (skip_every_false_value string string nat Demo.get_provider
           Demo.alter_value Demo.pattern Demo.re_compile Demo.pattern_match
           Demo.store Demo.idle Demo.idle_rules None (Demo.session [] None)
           "visits" (inr (Some Demo.idle)) (Demo.session [] None)).
  - simpl; auto.
  - reflexivity.
Defined.

Lemma altered_value_witness :
  Demo.run_process_row Demo.ann ([] ++ Demo.mask_email :: [Demo.count_name]) None
    (Demo.session [] None)
  = (inr (Some Demo.ann_masked),
     snd (Demo.run_process_row Demo.ann [Demo.mask_email; Demo.count_name] None
            (Demo.session [] None)))
  /\ first_key Demo.mask_email = inr "email"
  /\ dict_getitem Demo.mask_email "email"
     = inr (Demo.with_provider "mask" (Some "@localhost"))
  /\ ~ In "email" (rule_names [Demo.count_name])
  /\ truthy (row_get Demo.ann "email") = true
  /\ exists p s s' v,
      Demo.get_provider (Some "mask") = inr p
      /\ Demo.alter_value p (row_get Demo.ann "email") s = (inr v, s')
      /\ with_append v (Some "@localhost") = inr (row_get Demo.ann_masked "email").
Proof.
  assert (Hlast : ~ In "email" (rule_names [Demo.count_name])).
  { simpl. intros [H | []]. discriminate H. }
  repeat (split; [first [reflexivity | exact Hlast] |]).
  apply (altered_value string string nat Demo.get_provider Demo.alter_value
           Demo.pattern Demo.re_compile Demo.pattern_match Demo.store
           Demo.ann [] Demo.mask_email [Demo.count_name] None
           (Demo.session [] None) Demo.ann_masked
           (snd (Demo.run_process_row Demo.ann [Demo.mask_email; Demo.count_name]
                   None (Demo.session [] None)))
           "email"
           (Demo.with_provider "mask" (Some "@localhost")));
    first [reflexivity | exact Hlast].
Defined.



Lemma copy_from_errors_witness :
  let e := BadCopyFileFormat "extra data after last expected column" in
  let w := Demo.session [] (Some e) in
  Demo.db_copy_from (data2csv Demo.delimiter [Demo.u1]) "tmp_users" Demo.delimiter
    (String backslash "N") (db w) = (Some e, db w)
  /\ ((data_error e ->
       fst (Demo.run_copy_from [Demo.u1] "tmp_users" w) = inl (BadDataFormat e)
       /\ BadDataFormat e <> e)
      /\ (~ data_error e ->
          fst (Demo.run_copy_from [Demo.u1] "tmp_users" w) = inl e)).
Proof.
  intros e w. split; [reflexivity |].
  apply (copy_from_errors string nat Demo.store Demo.db_copy_from Demo.delimiter
           [Demo.u1] "tmp_users" w e (db w)).
  reflexivity.
Defined.



Lemma invalid_pattern_found_late_witness :
  let bad := Some [[("email", ["("])]] in
  let none := Demo.session [] None in
  let some := Demo.session [Demo.u1; Demo.u2] None in
  (0 < 2)%Z
  /\ get_column_names [Demo.mask_email] = inr ["email"]
  /\ Demo.run_table "users" "id" [Demo.mask_email] bad None 2 2 none
     = Demo.run_table "users" "id" [Demo.mask_email] None None 2 2 none
  /\ exists w',
      Demo.run_table "users" "id" [Demo.mask_email] bad None 2 2 some
      = (inl (ReError "missing ), unterminated subpattern"), w')
      /\ trace w'
         = List.app (trace some)
             [EvDeclare (select_sql "users" "id" ["email"] None);
              EvExecute (ctas_query ("tmp_" ++ "users") "users"
                           (sql_column_list "id" ["email"]));
              EvFetch 2 (firstn (Z.to_nat 2) [Demo.u1; Demo.u2])].
Proof.
  intros bad none some.
  assert (Hc : (0 < 2)%Z) by lia.
  assert (Hn : get_column_names [Demo.mask_email] = inr ["email"]) by reflexivity.
  split; [exact Hc |]. split; [exact Hn |]. split.
  - apply (proj1 (invalid_pattern_found_late string string nat Demo.get_provider
                    Demo.alter_value Demo.pattern Demo.re_compile
                    Demo.pattern_match Demo.store Demo.db_execute Demo.db_declare
                    Demo.db_copy_from Demo.delimiter "id" "users" "id"
                    [Demo.mask_email] None 2%Z 2%Z ["email"] none Hc Hn)).
    reflexivity.
  - apply (proj2 (invalid_pattern_found_late string string nat Demo.get_provider
                    Demo.alter_value Demo.pattern Demo.re_compile
                    Demo.pattern_match Demo.store Demo.db_execute Demo.db_declare
                    Demo.db_copy_from Demo.delimiter "id" "users" "id"
                    [Demo.mask_email] None 2%Z 2%Z ["email"] some Hc Hn)
             "email" "(" [] [] [] (ReError "missing ), unterminated subpattern")
             Demo.u1 [Demo.u2] (db some)).
    + reflexivity.
    + lia.
    + reflexivity.
    + reflexivity.
Defined.

Definition sample_record : Row :=
  [("id", VInt 7);
   ("note", VStr ("  a" ++ str1 TAB ++ "b" ++ str1 backslash ++ "c "));
   ("meta", VDict [("k", JStr "v"); ("n", JInt 2)]);
   ("gone", VNone);
   ("ok", VBool true)].

Lemma data2csv_plain_witness :
  (forall row, In row [sample_record] -> plain_row Demo.delimiter row)
  /\ data2csv Demo.delimiter [sample_record]
     = String.concat ""
         (map (fun row => join (str1 Demo.delimiter)
                            (map field_text (row_values row)) ++ str1 LF)
              [sample_record]).
Proof.
  assert (H : forall row, In row [sample_record] -> plain_row Demo.delimiter row).
  { intros row [<- | []]. split.
    - intros x Hin. simpl in Hin.
      destruct Hin as [<- | [<- | [<- | [<- | [<- | []]]]]]; split; reflexivity.
    - intros x Hx. discriminate Hx. }
  split; [exact H |].
  exact (data2csv_plain Demo.delimiter [sample_record] H).
Defined.

(* ===================================================================== *)
(** * Where the specification and the code part *)
(* ===================================================================== *)


(** C2 as stated fails: the empty string is not null, the provider
    would turn it into ["x"] and the rule appends ["@localhost"], yet
    the row comes back with the empty string. *)
Lemma empty_string_is_not_altered :
  let r := Demo.run_process_row Demo.bob [Demo.set_email] None (Demo.session [] None) in
  fst r = inr (Some Demo.bob)
  /\ row_get Demo.bob "email" <> VNone
  /\ Demo.get_provider (Some "set") = inr "set"
  /\ (forall s, Demo.alter_value "set" (row_get Demo.bob "email") s
                = (inr (VStr "x"), s))
  /\ with_append (VStr "x") (Some "@localhost") = inr (VStr "x@localhost")
  /\ row_get Demo.bob "email" <> VStr "x@localhost".
Proof. repeat split; try reflexivity; discriminate. Qed.

(** C3 as stated fails: a tab inside a string is written as a backslash
    and the letter t, not as a backslash and the tab; and a field with
    the quote character of the writer is quoted. *)
Lemma tab_is_written_as_letter :
  let row := [("id", VInt 7); ("note", VStr ("a" ++ str1 TAB ++ "b"))] in
  data2csv Demo.delimiter [row]
  = "7" ++ str1 Demo.delimiter ++ "a" ++ String backslash "tb" ++ str1 LF
  /\ data2csv_spec Demo.delimiter [row]
     = "7" ++ str1 Demo.delimiter ++ "a" ++ String backslash (str1 TAB) ++ "b"
       ++ str1 LF
  /\ data2csv Demo.delimiter [row] <> data2csv_spec Demo.delimiter [row]
  /\ data2csv Demo.delimiter [[("note", VStr "a~b")]] = "~a~~b~" ++ str1 LF.
Proof. repeat split; try reflexivity; discriminate. Qed.


(** C8 as stated fails: with a pattern that does not compile, the run
    over an empty table ends normally, and the run over a table with a
    row raises only after it has fetched the row. *)
Lemma invalid_pattern_unnoticed_or_late :
  let bad := Some [[("email", ["("])]] in
  Demo.re_compile "(" = inl (ReError "missing ), unterminated subpattern")
  /\ fst (Demo.run_tables [Demo.users bad 2] (Demo.session [] None)) = inr tt
  /\ fst (Demo.run_tables [Demo.users bad 2] (Demo.session [Demo.u1] None))
     = inl (ReError "missing ), unterminated subpattern")
  /\ fetches (trace (snd (Demo.run_tables [Demo.users bad 2]
                            (Demo.session [Demo.u1] None))))
     = [(2%Z, [Demo.u1])].
Proof. repeat split; vm_compute; reflexivity. Qed.

(* ===================================================================== *)
(** * More runs of the sample installation *)
(* ===================================================================== *)

Module Tour.

Definition rules : list (rule string) := [Demo.mask_email; Demo.count_name].

Definition ann_values : pydict value :=
  [("email", VStr "XXXXXXXXX@localhost"); ("name", VStr "0")].

Definition run_batch :=
  parmap_process_row string string nat Demo.get_provider Demo.alter_value
    Demo.pattern Demo.re_compile Demo.pattern_match Demo.store.

Definition run_loop :=
  batch_loop string string nat Demo.get_provider Demo.alter_value
    Demo.pattern Demo.re_compile Demo.pattern_match Demo.store
    Demo.db_copy_from Demo.delimiter.

Definition run_truncate :=
  truncate_tables string nat Demo.store Demo.db_execute.

Definition matches :=
  match_definitions Demo.pattern Demo.re_compile Demo.pattern_match.

(** A session whose cursor still holds the given rows. *)
Definition reading (rows : list Row) : Demo.world :=
  {| db := {| Demo.table_rows := rows; Demo.copy_outcome := None |};
     pending := rows; pstate := 0%nat; trace := [] |}.

Definition tilde_row : Row := [("id", VInt 9); ("email", VStr "a~b")].

Definition select_users : string := select_sql "users" "id" ["email"] None.

Definition create_tmp_users : string :=
  ctas_query ("tmp_" ++ "users") "users" (sql_column_list "id" ["email"]).

End Tour.

Lemma encoded_field_no_control_witness :
  In TAB [LF; CR; TAB]
  /\ contains TAB (csv_text (encode_value (VStr ("a" ++ str1 TAB ++ "b")))) = false.
Proof.
  assert (H : In TAB [LF; CR; TAB]) by (right; right; left; reflexivity).
  split; [exact H |].
  exact (encoded_field_no_control (VStr ("a" ++ str1 TAB ++ "b")) TAB H).
Defined.

Lemma data2csv_one_line_per_row_witness :
  Demo.delimiter <> LF
  /\ count_char LF (data2csv Demo.delimiter [Demo.u1; Tour.tilde_row; Demo.bob])
     = length [Demo.u1; Tour.tilde_row; Demo.bob].
Proof.
  assert (H : Demo.delimiter <> LF) by discriminate.
  split; [exact H |].
  exact (data2csv_one_line_per_row Demo.delimiter
           [Demo.u1; Tour.tilde_row; Demo.bob] H).
Defined.

Lemma encode_ignores_outer_space_witness :
  all_space ("  " ++ str1 TAB) = true
  /\ encode_value (VStr (strip ("  " ++ str1 TAB)))
     = encode_value (VStr ("  " ++ str1 TAB))
  /\ encode_value (VStr ("  " ++ str1 TAB)) = VStr "".
Proof.
  assert (H : all_space ("  " ++ str1 TAB) = true) by reflexivity.
  split; [exact H |]. split.
  - exact (proj1 (encode_ignores_outer_space ("  " ++ str1 TAB))).
  - exact (proj2 (encode_ignores_outer_space ("  " ++ str1 TAB)) H).
Defined.

Lemma get_column_names_result_witness :
  existsb is_empty Tour.rules = false
  /\ get_column_names Tour.rules = inr (rule_names Tour.rules)
  /\ length (rule_names Tour.rules) = length Tour.rules.
Proof.
  assert (H : existsb is_empty Tour.rules = false) by reflexivity.
  split; [exact H |]. split.
  - exact (proj1 (get_column_names_result Tour.rules)).
  - exact (proj2 (get_column_names_result Tour.rules) H).
Defined.


Lemma provider_calls_witness :
  let w := Demo.session [] None in
  let w' := snd (Demo.run_get_column_values Demo.ann Tour.rules w) in
  Demo.run_get_column_values Demo.ann Tour.rules w = (inr Tour.ann_values, w')
  /\ trace w' = List.app (trace w) (flat_map (rule_calls Demo.ann) Tour.rules).
Proof.
  intros w w'.
  assert (H : Demo.run_get_column_values Demo.ann Tour.rules w
              = (inr Tour.ann_values, w')) by (vm_compute; reflexivity).
  split; [exact H |].
  exact (provider_calls string string nat Demo.get_provider Demo.alter_value
           Demo.store Demo.ann Tour.rules w Tour.ann_values w' H).
Defined.

Lemma altered_columns_witness :
  let w := Demo.session [] None in
  let w' := snd (Demo.run_get_column_values Demo.bob Tour.rules w) in
  Demo.run_get_column_values Demo.bob Tour.rules w = (inr [], w')
  /\ NoDup (map fst (@nil (string * value)))
  /\ forall c, dict_get (@nil (string * value)) c <> None
               <-> (In c (rule_names Tour.rules)
                    /\ truthy (row_get Demo.bob c) = true).
Proof.
  intros w w'.
  assert (H : Demo.run_get_column_values Demo.bob Tour.rules w = (inr [], w'))
    by (vm_compute; reflexivity).
  split; [exact H |].
  exact (altered_columns string string nat Demo.get_provider Demo.alter_value
           Demo.store Demo.bob Tour.rules w [] w' H).
Defined.

Lemma process_row_overlays_witness :
  let w := Demo.session [] None in
  let w' := snd (Demo.run_get_column_values Demo.ann Tour.rules w) in
  row_matches_excludes Demo.pattern Demo.re_compile Demo.pattern_match Demo.ann
    (Some [Demo.example_com]) = inr false
  /\ Demo.run_get_column_values Demo.ann Tour.rules w = (inr Tour.ann_values, w')
  /\ exists row',
      Demo.run_process_row Demo.ann Tour.rules (Some [Demo.example_com]) w
      = (inr (Some row'), w')
      /\ map fst row' = map fst Demo.ann
      /\ forall c, row_get row' c = match dict_get Tour.ann_values c with
                                    | Some x => x
                                    | None => row_get Demo.ann c
                                    end.
Proof.
  intros w w'.
  assert (Hx : row_matches_excludes Demo.pattern Demo.re_compile
                 Demo.pattern_match Demo.ann (Some [Demo.example_com])
               = inr false) by (vm_compute; reflexivity).
  assert (H : Demo.run_get_column_values Demo.ann Tour.rules w
              = (inr Tour.ann_values, w')) by (vm_compute; reflexivity).
  split; [exact Hx |]. split; [exact H |].
  exact (process_row_overlays string string nat Demo.get_provider
           Demo.alter_value Demo.pattern Demo.re_compile Demo.pattern_match
           Demo.store Demo.ann Tour.rules (Some [Demo.example_com]) w
           Tour.ann_values w' Hx H).
Defined.

Lemma batch_transform_is_local_witness :
  let w := Tour.reading [Demo.u3] in
  let run := Tour.run_batch [Demo.u1; Demo.cat] [Demo.mask_email]
               (Some [Demo.example_com]) w in
  run = (fst run, snd run)
  /\ db (snd run) = db w /\ pending (snd run) = pending w
  /\ db_events (trace (snd run)) = db_events (trace w)
  /\ (forall data, fst run = inr data -> length data = length [Demo.u1; Demo.cat]).
Proof.
  intros w run.
  assert (H : run = (fst run, snd run)) by (vm_compute; reflexivity).
  split; [exact H |].
  exact (batch_transform_is_local string string nat Demo.get_provider
           Demo.alter_value Demo.pattern Demo.re_compile Demo.pattern_match
           Demo.store [Demo.u1; Demo.cat] [Demo.mask_email]
           (Some [Demo.example_com]) w (fst run) (snd run) H).
Defined.

Lemma first_match_decides_witness :
  Forall (rule_evaluable Demo.pattern Demo.re_compile Demo.cat) [[("name", ["z"])]]
  /\ (forall x, In x ["b.*"] -> exists p, Demo.re_compile x = inr p)
  /\ row_lookup Demo.cat "email" = Some (VStr "Cat@Example.com")
  /\ Demo.re_compile "cat@" = inr [(Demo.Lit "c", false); (Demo.Lit "a", false);
                                   (Demo.Lit "t", false); (Demo.Lit "@", false)]
  /\ Demo.pattern_match [(Demo.Lit "c", false); (Demo.Lit "a", false);
                         (Demo.Lit "t", false); (Demo.Lit "@", false)]
       "Cat@Example.com" = true
  /\ Tour.matches Demo.cat
       ([[("name", ["z"])]]
        ++ [("email", (["b.*"] ++ "cat@" :: ["("])%list)]
           :: [[("age", [".*"])]])
     = inr true.
Proof.
  assert (H1 : Forall (rule_evaluable Demo.pattern Demo.re_compile Demo.cat)
                 [[("name", ["z"])]]).
  { constructor; [| constructor]. exists "name", ["z"].
    repeat split. right. split.
    - intros x [<- | []]. eexists. reflexivity.
    - right. eexists. reflexivity. }
  assert (H2 : forall x, In x ["b.*"] -> exists p, Demo.re_compile x = inr p).
  { intros x [<- | []]. eexists. reflexivity. }
  split; [exact H1 |]. split; [exact H2 |].
  split; [reflexivity |]. split; [reflexivity |]. split; [reflexivity |].
  exact (first_match_decides Demo.pattern Demo.re_compile Demo.pattern_match
           Demo.cat [[("name", ["z"])]] "email" ["b.*"] "cat@" ["("] []
           [[("age", [".*"])]] _ "Cat@Example.com" H1 H2 eq_refl eq_refl eq_refl).
Defined.

Lemma zero_chunk_size_witness :
  let w := Demo.session [Demo.u1] None in
  get_column_names [Demo.mask_email] = inr ["email"]
  /\ Demo.db_declare Tour.select_users (db w) = (inr [Demo.u1], db w)
  /\ fst (Demo.db_execute Tour.create_tmp_users (db w)) = None
  /\ exists w',
      Demo.run_table "users" "id" [Demo.mask_email] None None 1 0 w
      = (inl ZeroDivisionError, w')
      /\ trace w' = List.app (trace w)
                      [EvDeclare Tour.select_users; EvExecute Tour.create_tmp_users]
      /\ pending w' = [Demo.u1].
Proof.
  intros w.
  split; [reflexivity |]. split; [reflexivity |]. split; [reflexivity |].
  exact (zero_chunk_size string string nat Demo.get_provider Demo.alter_value
           Demo.pattern Demo.re_compile Demo.pattern_match Demo.store
           Demo.db_execute Demo.db_declare Demo.db_copy_from Demo.delimiter "id"
           "users" "id" [Demo.mask_email] None None 1%Z ["email"] [Demo.u1]
           (db w) w eq_refl eq_refl eq_refl).
Defined.

Lemma nothing_fetched_without_count_witness :
  let w := Demo.session [Demo.u1] None in
  let run := Demo.run_table "users" "id" [Demo.mask_email] None None 0 2 w in
  (0 < 2)%Z /\ (0 <= 0)%Z
  /\ run = (inr tt, snd run)
  /\ fetches (trace (snd run)) = fetches (trace w)
  /\ copies (trace (snd run)) = copies (trace w).
Proof.
  intros w run.
  assert (H1 : (0 < 2)%Z) by reflexivity.
  assert (H2 : (0 <= 0)%Z) by discriminate.
  assert (H : run = (inr tt, snd run)) by (vm_compute; reflexivity).
  split; [exact H1 |]. split; [exact H2 |]. split; [exact H |].
  exact (nothing_fetched_without_count string string nat Demo.get_provider
           Demo.alter_value Demo.pattern Demo.re_compile Demo.pattern_match
           Demo.store Demo.db_execute Demo.db_declare Demo.db_copy_from
           Demo.delimiter "id" "users" "id" [Demo.mask_email] None None 0%Z 2%Z
           w (inr tt) (snd run) H1 H2 H).
Defined.


Lemma excluded_batch_loads_empty_text_witness :
  let w := Tour.reading [Demo.cat; Demo.u1] in
  let excludes := Some [Demo.example_com] in
  (0 <= 1)%Z
  /\ firstn (Z.to_nat 1) (pending w) <> []
  /\ Forall (fun row => row_matches_excludes Demo.pattern Demo.re_compile
                          Demo.pattern_match row excludes = inr true)
       (firstn (Z.to_nat 1) (pending w))
  /\ Tour.run_loop 2 "tmp_users" [Demo.mask_email] excludes 1 w
     = bind string nat Demo.store (Demo.run_copy_from [] "tmp_users")
         (fun _ => Tour.run_loop 1 "tmp_users" [Demo.mask_email] excludes 1)
         (after_fetch 1 w)
  /\ data2csv Demo.delimiter [] = "".
Proof.
  intros w excludes.
  assert (H1 : (0 <= 1)%Z) by discriminate.
  assert (H2 : firstn (Z.to_nat 1) (pending w) <> []) by discriminate.
  assert (H3 : Forall (fun row => row_matches_excludes Demo.pattern
                                    Demo.re_compile Demo.pattern_match row
                                    excludes = inr true)
                 (firstn (Z.to_nat 1) (pending w))).
  { constructor; [vm_compute; reflexivity | constructor]. }
  split; [exact H1 |]. split; [exact H2 |]. split; [exact H3 |].
  exact (excluded_batch_loads_empty_text string string nat Demo.get_provider
           Demo.alter_value Demo.pattern Demo.re_compile Demo.pattern_match
           Demo.store Demo.db_copy_from Demo.delimiter 1 "tmp_users"
           [Demo.mask_email] excludes 1%Z w H1 H2 H3).
Defined.

Lemma truncate_tables_calls_witness :
  let w := Demo.session [] None in
  let run := Tour.run_truncate (Some ["users"; "orders"]) w in
  run = (inr tt, snd run)
  /\ pending (snd run) = pending w /\ pstate (snd run) = pstate w
  /\ exists sql,
      trace (snd run) = List.app (trace w) [EvExecute sql]
      /\ forall t, In t ["users"; "orders"] -> occurs_in t sql.
Proof.
  intros w run.
  assert (H : run = (inr tt, snd run)) by (vm_compute; reflexivity).
  split; [exact H |].
  exact (truncate_tables_calls string nat Demo.store Demo.db_execute
           (Some ["users"; "orders"]) w (inr tt) (snd run) H).
Defined.
